(** * VCP: a serial-port library in C (VCP.h) and its .NET wrapper (VCP.cs)

    A shallow embedding of the two layers of the repository and the
    properties of their specification.

    - [VCP]: the C library.  Machine integers are [Z] with the wrap-around
      of their C type written out; arrays are lists updated by index; the
      operating system is a [World] that records every call made to it and
      answers from a script.
    - [VCPWrapper]: the C# class [Port], which calls the C library. *)

From Stdlib Require Import ZArith Lia Bool String Ascii.
From stdpp Require Import base list.

Local Open Scope Z_scope.

(** ** Machine integers *)

(** Conversion to [uint8_t]. *)
Definition u8 (z : Z) : Z := z mod 256.

(** Conversion to [uint16_t]. *)
Definition u16 (z : Z) : Z := z mod 65536.

(** Conversion to a 32-bit unsigned value ([DWORD]). *)
Definition u32 (z : Z) : Z := z mod 4294967296.

(** Conversion to a 32-bit [int] (two's complement). *)
Definition i32 (z : Z) : Z := (z + 2147483648) mod 4294967296 - 2147483648.

(** [a[i]] for an array held as a list; the index is a machine integer. *)
Definition at_index (a : list Z) (i : Z) : Z := default 0 (a !! Z.to_nat i).

(** [a[i] = v]. *)
Definition set_index (a : list Z) (i : Z) (v : Z) : list Z := <[Z.to_nat i := v]> a.

Module VCP.

(** ** The operating system

    Every call the library makes to the operating system is appended to
    [calls]; the next entry of [script] decides whether the call succeeds
    (and, for a read, which bytes are waiting).  An exhausted script
    answers [Ok []]: the call succeeds and no byte is waiting. *)

(** The part of the Windows [DCB] that the library assigns; the other
    fields are copied unchanged with the structure. *)
Record DCB := mkDCB {
  BaudRate : Z; ByteSize : Z; Parity : Z; StopBits : Z }.

Record COMMTIMEOUTS := mkCOMMTIMEOUTS {
  ReadIntervalTimeout : Z;
  ReadTotalTimeoutMultiplier : Z;
  ReadTotalTimeoutConstant : Z;
  WriteTotalTimeoutMultiplier : Z;
  WriteTotalTimeoutConstant : Z }.

Record termios := mkTermios {
  c_iflag : Z; c_oflag : Z; c_cflag : Z; c_lflag : Z;
  c_cc : list Z; c_ispeed : Z; c_ospeed : Z }.

(** The constants of <termios.h> and <errno.h> that the library names.
    [B] gives the speed constant [B<rate>] of a rate of the table. *)
Record posix_h := mkPosixH {
  INPCK : Z; IGNPAR : Z; PARMRK : Z; ISTRIP : Z; IGNCR : Z; INLCR : Z;
  IXON : Z; IXOFF : Z; OPOST : Z; CLOCAL : Z; CREAD : Z; HUPCL : Z;
  CSTOPB : Z; PARENB : Z; CSIZE : Z; ICANON : Z; ECHO : Z; ECHOE : Z;
  ECHOK : Z; ECHOKE : Z; ECHONL : Z; CS8 : Z; PARODD : Z;
  VMIN : Z; VTIME : Z; B : Z -> Z; EWOULDBLOCK : Z; EBADF : Z }.

(** The two branches of [#ifdef _WIN32]. *)
Inductive platform := Win32 | Posix (h : posix_h).

Inductive reply := Ok (bytes : list Z) | Fail (code : Z).

Inductive os_call :=
| OsOpen (name : list Z)
| OsGetState (h : Z)
| OsSetState (h : Z)
| OsGetTimeouts (h : Z)
| OsSetTimeouts (h : Z)
| OsRead (h : Z) (length : Z)
| OsWrite (h : Z) (bytes : list Z)
| OsClose (h : Z)
| Stderr (message : string).

Record World := mkWorld {
  handles : list Z;          (* the handles that are open *)
  fresh : Z;                 (* the handle the next open returns *)
  last_error : Z;            (* errno, GetLastError() *)
  calls : list os_call;      (* the calls made so far, oldest first *)
  script : list reply;       (* the answers to the coming calls *)
  dev_dcb : DCB;             (* the device's line settings *)
  dev_timeouts : COMMTIMEOUTS;
  dev_termios : termios }.

Definition set_handles (hs : list Z) (w : World) : World :=
  mkWorld hs (fresh w) (last_error w) (calls w) (script w)
          (dev_dcb w) (dev_timeouts w) (dev_termios w).

Definition set_fresh (f : Z) (w : World) : World :=
  mkWorld (handles w) f (last_error w) (calls w) (script w)
          (dev_dcb w) (dev_timeouts w) (dev_termios w).

Definition set_last_error (e : Z) (w : World) : World :=
  mkWorld (handles w) (fresh w) e (calls w) (script w)
          (dev_dcb w) (dev_timeouts w) (dev_termios w).

Definition log (c : os_call) (w : World) : World :=
  mkWorld (handles w) (fresh w) (last_error w) (calls w ++ [c]) (script w)
          (dev_dcb w) (dev_timeouts w) (dev_termios w).

Definition set_script (rs : list reply) (w : World) : World :=
  mkWorld (handles w) (fresh w) (last_error w) (calls w) rs
          (dev_dcb w) (dev_timeouts w) (dev_termios w).

Definition set_dev_dcb (d : DCB) (w : World) : World :=
  mkWorld (handles w) (fresh w) (last_error w) (calls w) (script w)
          d (dev_timeouts w) (dev_termios w).

Definition set_dev_timeouts (t : COMMTIMEOUTS) (w : World) : World :=
  mkWorld (handles w) (fresh w) (last_error w) (calls w) (script w)
          (dev_dcb w) t (dev_termios w).

Definition set_dev_termios (t : termios) (w : World) : World :=
  mkWorld (handles w) (fresh w) (last_error w) (calls w) (script w)
          (dev_dcb w) (dev_timeouts w) t.

(** ERROR_INVALID_HANDLE, or EBADF. *)
Definition bad_handle (pf : platform) : Z :=
  match pf with Win32 => 6 | Posix hd => EBADF hd end.

Definition answer (w : World) : reply * World :=
  match script w with
  | [] => (Ok [], w)
  | r :: rs => (r, set_script rs w)
  end.

Definition held (h : Z) (w : World) : bool := bool_decide (h ∈ handles w).

(** A call on a handle: it fails outright on a handle that is not open,
    otherwise the script answers.  A failure sets the error code. *)
Definition on_handle (pf : platform) (c : os_call) (h : Z) (w : World)
  : reply * World :=
  let w := log c w in
  if held h w then
    match answer w with
    | (Fail e, w') => (Fail e, set_last_error e w')
    | (Ok bs, w') => (Ok bs, w')
    end
  else (Fail (bad_handle pf), set_last_error (bad_handle pf) w).

(** [CreateFile], [open]: a new handle, or -1 ([INVALID_HANDLE_VALUE]). *)
Definition os_open (name : list Z) (w : World) : Z * World :=
  match answer (log (OsOpen name) w) with
  | (Fail e, w') => (-1, set_last_error e w')
  | (Ok _, w') => (fresh w', set_fresh (fresh w' + 1) (set_handles (fresh w' :: handles w') w'))
  end.

(** [CloseHandle], [close]. *)
Definition os_close (pf : platform) (h : Z) (w : World) : World :=
  let w := log (OsClose h) w in
  if held h w then set_handles (filter (λ x, x ≠ h) (handles w)) w
  else set_last_error (bad_handle pf) w.

(** [GetCommState]. *)
Definition GetCommState (h : Z) (w : World) : bool * DCB * World :=
  match on_handle Win32 (OsGetState h) h w with
  | (Ok _, w') => (true, dev_dcb w', w')
  | (Fail _, w') => (false, dev_dcb w', w')
  end.

(** [SetCommState]. *)
Definition SetCommState (h : Z) (d : DCB) (w : World) : bool * World :=
  match on_handle Win32 (OsSetState h) h w with
  | (Ok _, w') => (true, set_dev_dcb d w')
  | (Fail _, w') => (false, w')
  end.

(** [GetCommTimeouts]. *)
Definition GetCommTimeouts (h : Z) (w : World) : bool * COMMTIMEOUTS * World :=
  match on_handle Win32 (OsGetTimeouts h) h w with
  | (Ok _, w') => (true, dev_timeouts w', w')
  | (Fail _, w') => (false, dev_timeouts w', w')
  end.

(** [SetCommTimeouts]. *)
Definition SetCommTimeouts (h : Z) (t : COMMTIMEOUTS) (w : World) : bool * World :=
  match on_handle Win32 (OsSetTimeouts h) h w with
  | (Ok _, w') => (true, set_dev_timeouts t w')
  | (Fail _, w') => (false, w')
  end.

(** [tcgetattr]: 0, or -1. *)
Definition tcgetattr (hd : posix_h) (h : Z) (w : World) : Z * termios * World :=
  match on_handle (Posix hd) (OsGetState h) h w with
  | (Ok _, w') => (0, dev_termios w', w')
  | (Fail _, w') => (-1, dev_termios w', w')
  end.

(** [tcsetattr]: 0, or -1. *)
Definition tcsetattr (hd : posix_h) (h : Z) (t : termios) (w : World) : Z * World :=
  match on_handle (Posix hd) (OsSetState h) h w with
  | (Ok _, w') => (0, set_dev_termios t w')
  | (Fail _, w') => (-1, w')
  end.

(** [ReadFile], [read]: at most [length] of the waiting bytes, or a failure. *)
Definition os_read (pf : platform) (h : Z) (length : Z) (w : World)
  : option (list Z) * World :=
  match on_handle pf (OsRead h length) h w with
  | (Ok bs, w') => (Some (take (Z.to_nat length) bs), w')
  | (Fail _, w') => (None, w')
  end.

(** The number of bytes a write that succeeds reports: the system may
    leave some of the bytes unwritten, as many as [unwritten] holds, but of
    a buffer that is not empty it writes one byte at least. *)
Definition written_count (bytes unwritten : list Z) : Z :=
  Z.of_nat (length bytes - Nat.min (length unwritten) (Nat.pred (length bytes))).

(** [WriteFile], [write]: the number of bytes written, which may be short
    of the number asked, or a failure. *)
Definition os_write (pf : platform) (h : Z) (bytes : list Z) (w : World)
  : option Z * World :=
  match on_handle pf (OsWrite h bytes) h w with
  | (Ok unwritten, w') => (Some (written_count bytes unwritten), w')
  | (Fail _, w') => (None, w')
  end.

(** [fprintf(stderr, ...)]. *)
Definition eprintf (message : string) (w : World) : World := log (Stderr message) w.

(** The bytes [src] written to the front of [buffer]. *)
Definition fill (buffer src : list Z) : list Z := src ++ drop (length src) buffer.

(** ** The library's state (VCP.h, the [static] variables) *)

Record Sys := mkSys {
  hComm : Z;
  DCBinitial : DCB;
  TIMEOUTinitial : COMMTIMEOUTS;
  termiosInitial : termios;
  os : World }.

Definition set_hComm (h : Z) (st : Sys) : Sys :=
  mkSys h (DCBinitial st) (TIMEOUTinitial st) (termiosInitial st) (os st).

Definition set_DCBinitial (d : DCB) (st : Sys) : Sys :=
  mkSys (hComm st) d (TIMEOUTinitial st) (termiosInitial st) (os st).

Definition set_TIMEOUTinitial (t : COMMTIMEOUTS) (st : Sys) : Sys :=
  mkSys (hComm st) (DCBinitial st) t (termiosInitial st) (os st).

Definition set_termiosInitial (t : termios) (st : Sys) : Sys :=
  mkSys (hComm st) (DCBinitial st) (TIMEOUTinitial st) t (os st).

Definition set_os (w : World) (st : Sys) : Sys :=
  mkSys (hComm st) (DCBinitial st) (TIMEOUTinitial st) (termiosInitial st) w.

Definition INVALID_HANDLE_VALUE : Z := -1.
Definition MAXDWORD : Z := 4294967295.
Definition ONESTOPBIT : Z := 0.
Definition TWOSTOPBITS : Z := 2.

(** ** [init_COM_port] *)

(** [BaudRno] under [_WIN32]; [BaudR] holds the constants [CBR_<rate>],
    whose values are the rates. *)
Definition BaudRno_win32 : list Z :=
  [110; 300; 600; 1200; 2400; 4800; 9600; 14400;
   19200; 38400; 57600; 115200; 128000; 256000].

Definition BaudR_win32 : list Z := BaudRno_win32.

(** [BaudRno] and [BaudR] otherwise. *)
Definition BaudRno_posix : list Z :=
  [0; 50; 75; 110; 134; 150; 200; 300; 600; 1200; 1800;
   2400; 4800; 9600; 19200; 38400; 57600; 115200; 230400].

Definition BaudR_posix (hd : posix_h) : list Z := map (B hd) BaudRno_posix.

(** The [for] loop over the table: the constant of the first entry equal
    to [baudRate], if there is one. *)
Fixpoint baud_loop (baudRate : Z) (BaudRno BaudR : list Z) : option Z :=
  match BaudRno, BaudR with
  | n :: BaudRno', b :: BaudR' =>
      if baudRate =? n then Some b else baud_loop baudRate BaudRno' BaudR'
  | _, _ => None
  end.

Definition init_COM_port_win32 (portName : list Z) (baudRate parityBit stopBits mode : Z)
  (st : Sys) : Z * Sys :=
  let '(h, w) := os_open portName (os st) in
  let st := set_os w (set_hComm h st) in
  if hComm st =? INVALID_HANDLE_VALUE then
    (-1, set_os (eprintf "Error opening COM port" (os st)) st)
  else
  let '(ok, d, w) := GetCommState (hComm st) (os st) in
  let st := set_os w (if ok then set_DCBinitial d st else st) in
  if negb ok then
    let w := eprintf "Error retrieving DCB settings for COM port" (os st) in
    (-1, set_os (os_close Win32 (hComm st) w) st)
  else
  let DCBsettings := DCBinitial st in
  let DCBsettings :=
    mkDCB (BaudRate DCBsettings) 8 (Parity DCBsettings) (StopBits DCBsettings) in
  let DCBsettings :=
    match baud_loop baudRate BaudRno_win32 BaudR_win32 with
    | Some b => mkDCB b (ByteSize DCBsettings) (Parity DCBsettings) (StopBits DCBsettings)
    | None => DCBsettings
    end in
  let DCBsettings :=
    mkDCB (BaudRate DCBsettings) (ByteSize DCBsettings)
          (if parityBit <? 3 then parityBit else 0) (StopBits DCBsettings) in
  let DCBsettings :=
    mkDCB (BaudRate DCBsettings) (ByteSize DCBsettings) (Parity DCBsettings)
          (if stopBits =? 2 then TWOSTOPBITS else ONESTOPBIT) in
  let '(ok, w) := SetCommState (hComm st) DCBsettings (os st) in
  let st := set_os w st in
  if negb ok then
    let w := eprintf "Error setting DCB settings for COM port" (os st) in
    (-1, set_os (os_close Win32 (hComm st) w) st)
  else
  let '(ok, t, w) := GetCommTimeouts (hComm st) (os st) in
  let st := set_os w (if ok then set_TIMEOUTinitial t st else st) in
  if negb ok then
    let w := eprintf "Error retrieving time-out settings for COM port" (os st) in
    (-1, set_os (os_close Win32 (hComm st) w) st)
  else
  let timeouts := mkCOMMTIMEOUTS MAXDWORD 0 0 0 0 in
  let '(ok, w) := SetCommTimeouts (hComm st) timeouts (os st) in
  let st := set_os w st in
  if negb ok then
    let w := eprintf "Error setting time-out settings for COM port" (os st) in
    (-1, set_os (os_close Win32 (hComm st) w) st)
  else (0, st).

(** The settings [init_COM_port] builds from the initial [termios]. *)
Definition termiosSettings (hd : posix_h) (baudRate parityBit stopBits : Z)
  (initial : termios) : termios :=
  let iflag := c_iflag initial in
  let iflag := Z.lor iflag (Z.lor (INPCK hd) (IGNPAR hd)) in
  let iflag :=
    Z.land iflag
      (Z.lnot (Z.lor (Z.lor (Z.lor (PARMRK hd) (ISTRIP hd)) (IGNCR hd)) (INLCR hd))) in
  let iflag := Z.land iflag (Z.lnot (Z.lor (IXON hd) (IXOFF hd))) in
  let oflag := Z.land (c_oflag initial) (Z.lnot (OPOST hd)) in
  let cflag := c_cflag initial in
  let cflag := Z.lor cflag (Z.lor (CLOCAL hd) (CREAD hd)) in
  let cflag := Z.land cflag (Z.lnot (HUPCL hd)) in
  let cflag := Z.land cflag (Z.lnot (Z.lor (Z.lor (CSTOPB hd) (PARENB hd)) (CSIZE hd))) in
  let lflag := Z.land (c_lflag initial) (Z.lnot (ICANON hd)) in
  let lflag :=
    Z.land lflag
      (Z.lnot (Z.lor (Z.lor (Z.lor (Z.lor (ECHO hd) (ECHOE hd)) (ECHOK hd)) (ECHOKE hd))
                     (ECHONL hd))) in
  let cflag := Z.lor cflag (CS8 hd) in
  let '(ospeed, ispeed) :=
    match baud_loop baudRate BaudRno_posix (BaudR_posix hd) with
    | Some b => (b, b)
    | None => (c_ospeed initial, c_ispeed initial)
    end in
  let cflag := Z.lor cflag (if parityBit =? 0 then 0 else PARENB hd) in
  let cflag := Z.lor cflag (if parityBit =? 1 then PARODD hd else 0) in
  let cflag := Z.lor cflag (if stopBits =? 2 then CSTOPB hd else 0) in
  let cc := set_index (c_cc initial) (VMIN hd) 0 in
  let cc := set_index cc (VTIME hd) 0 in
  mkTermios iflag oflag cflag lflag cc ispeed ospeed.

Definition init_COM_port_posix (hd : posix_h) (portName : list Z)
  (baudRate parityBit stopBits mode : Z) (st : Sys) : Z * Sys :=
  let '(h, w) := os_open portName (os st) in
  let st := set_os w (set_hComm h st) in
  if hComm st <? 0 then
    (-1, set_os (eprintf "Error opening COM port" (os st)) st)
  else
  let '(r, t, w) := tcgetattr hd (hComm st) (os st) in
  let st := set_os w (if r =? 0 then set_termiosInitial t st else st) in
  if negb (r =? 0) then
    let w := eprintf "Error retrieving termios settings for COM port" (os st) in
    (-1, set_os (os_close (Posix hd) (hComm st) w) st)
  else
  let settings := termiosSettings hd baudRate parityBit stopBits (termiosInitial st) in
  let '(r, w) := tcsetattr hd (hComm st) settings (os st) in
  let st := set_os w st in
  if negb (r =? 0) then
    let w := eprintf "Error setting termios settings for COM port" (os st) in
    (-1, set_os (os_close (Posix hd) (hComm st) w) st)
  else (0, st).

Definition init_COM_port (pf : platform) (portName : list Z)
  (baudRate parityBit stopBits mode : Z) (st : Sys) : Z * Sys :=
  match pf with
  | Win32 => init_COM_port_win32 portName baudRate (u8 parityBit) (u8 stopBits) (u8 mode) st
  | Posix hd =>
      init_COM_port_posix hd portName baudRate (u8 parityBit) (u8 stopBits) (u8 mode) st
  end.

(** ** [poll_COM_port] *)

Definition poll_COM_port (pf : platform) (buffer : list Z) (length : Z) (st : Sys)
  : Z * list Z * Sys :=
  let length := u16 length in
  match pf with
  | Win32 =>
      match os_read Win32 (hComm st) length (os st) with
      | (Some bs, w) => (i32 (Z.of_nat (List.length bs)), fill buffer bs, set_os w st)
      | (None, w) => (i32 (u32 (0 - last_error w)), buffer, set_os w st)
      end
  | Posix hd =>
      let '(got, w) := os_read (Posix hd) (hComm st) length (os st) in
      let len := match got with Some bs => i32 (Z.of_nat (List.length bs)) | None => -1 end in
      let buffer := match got with Some bs => fill buffer bs | None => buffer end in
      let st := set_os w st in
      if 0 <=? len then (len, buffer, st)
      else if last_error w =? EWOULDBLOCK hd then (0, buffer, st)
      else (i32 (0 - last_error w), buffer, st)
  end.

(** ** [COM_port_send_buffer] *)

Definition COM_port_send_buffer (pf : platform) (buffer : list Z) (length : Z) (st : Sys)
  : Z * Sys :=
  let length := u8 length in
  match pf with
  | Win32 =>
      match os_write Win32 (hComm st) (take (Z.to_nat length) buffer) (os st) with
      | (Some n, w) => (i32 n, set_os w st)
      | (None, w) => (i32 (u32 (0 - last_error w)), set_os w st)
      end
  | Posix hd =>
      let '(put, w) := os_write (Posix hd) (hComm st) (take (Z.to_nat length) buffer) (os st) in
      let len := match put with Some n => i32 n | None => -1 end in
      if 0 <=? len then (len, set_os w st) else (i32 (0 - last_error w), set_os w st)
  end.

(** ** [COM_port_send_byte] *)

Definition COM_port_send_byte (pf : platform) (data : Z) (st : Sys) : Z * Sys :=
  let data := u8 data in
  match pf with
  | Win32 =>
      match os_write Win32 (hComm st) [data] (os st) with
      | (Some n, w) => (i32 n, set_os w st)
      | (None, w) => (i32 (u32 (0 - last_error w)), set_os w st)
      end
  | Posix hd =>
      let '(put, w) := os_write (Posix hd) (hComm st) [data] (os st) in
      let len := match put with Some n => i32 n | None => -1 end in
      if 0 <=? len then (len, set_os w st) else (i32 (0 - last_error w), set_os w st)
  end.

(** ** [COM_port_send_word] *)

(** The array [buffer] of [COM_port_send_word]; [big_endian] tells whether
    [COMPORT_BIG_ENDIAN] is defined. *)
Definition word_buffer (big_endian : bool) (data : Z) : list Z :=
  if big_endian
  then [u8 (Z.shiftr data 8); u8 (Z.land data 255)]
  else [u8 (Z.land data 255); u8 (Z.shiftr data 8)].

Definition COM_port_send_word (big_endian : bool) (pf : platform) (data : Z) (st : Sys)
  : Z * Sys :=
  let data := u16 data in
  let buffer := word_buffer big_endian data in
  match pf with
  | Win32 =>
      match os_write Win32 (hComm st) buffer (os st) with
      | (Some n, w) => (i32 n, set_os w st)
      | (None, w) => (i32 (u32 (0 - last_error w)), set_os w st)
      end
  | Posix hd =>
      let '(put, w) := os_write (Posix hd) (hComm st) buffer (os st) in
      let len := match put with Some n => i32 n | None => -1 end in
      if 0 <=? len then (len, set_os w st) else (i32 (0 - last_error w), set_os w st)
  end.

(** ** [close_COM_port] *)

Definition close_COM_port (pf : platform) (st : Sys) : Sys :=
  match pf with
  | Win32 =>
      let '(_, w) := SetCommState (hComm st) (DCBinitial st) (os st) in
      let '(_, w) := SetCommTimeouts (hComm st) (TIMEOUTinitial st) w in
      let w := os_close Win32 (hComm st) w in
      set_hComm INVALID_HANDLE_VALUE (set_os w st)
  | Posix hd =>
      let '(_, w) := tcsetattr hd (hComm st) (termiosInitial st) (os st) in
      let w := os_close (Posix hd) (hComm st) w in
      set_hComm (-1) (set_os w st)
  end.

(** ** Hexadecimal conversion (VCP.h, [ascii2hex] and [hex2ascii]) *)

(** The character codes of a string, as the [char]s that [str] points to. *)
Fixpoint codes (s : string) : list Z :=
  match s with
  | EmptyString => []
  | String a s' => Z.of_N (N_of_ascii a) :: codes s'
  end.

(** The memory a null-terminated string occupies. *)
Definition c_string (s : list Z) : list Z := s ++ [0].

(** One "byte packing" step, the body shared by the three branches of
    [ascii2hex]: with [mid] set the nibble [v] is or-ed into [data[j]] and
    [j] advances, otherwise [v << 4] is stored in [data[j]]. *)
Definition pack_nibble (data : list Z) (j mid v : Z) : list Z * Z * Z :=
  if mid =? 0
  then (set_index data j (u8 (Z.shiftl v 4)), j, 1)
  else (set_index data j (u8 (Z.lor (at_index data j) v)), u8 (j + 1), 0).

(** The body of the [while(str[i])] loop of [ascii2hex] for the character
    [c = str[i]]: the three ranges, each with its byte packing. *)
Definition ascii2hex_char (c : Z) (data : list Z) (j mid : Z) : list Z * Z * Z :=
  if (48 <=? c) && (c <=? 57) then pack_nibble data j mid (c - 48)
  else if (65 <=? c) && (c <=? 70) then pack_nibble data j mid (c - 55)
  else if (97 <=? c) && (c <=? 102) then pack_nibble data j mid (c - 87)
  else (data, j, mid).

(** The loop of [ascii2hex]; [i], [j] and [mid] are [uint8_t].  The
    result is the array and the returned length; [None] when [fuel]
    iterations do not reach the terminating null. *)
Fixpoint ascii2hex_loop (fuel : nat) (str data : list Z) (i j mid : Z)
  : option (list Z * Z) :=
  match fuel with
  | O => None
  | S fuel' =>
      let c := at_index str i in
      if c =? 0 then Some (data, if mid =? 0 then j else u8 (j + 1))
      else
        let '(data', j', mid') := ascii2hex_char c data j mid in
        ascii2hex_loop fuel' str data' (u8 (i + 1)) j' mid'
  end.

Definition ascii2hex (fuel : nat) (str data : list Z) : option (list Z * Z) :=
  ascii2hex_loop fuel str data 0 0 0.

(** The bytes [ascii2hex] hands back: the first [len] entries of [data]. *)
Definition ascii2hex_bytes (fuel : nat) (s : string) (data : list Z) : option (list Z) :=
  match ascii2hex fuel (c_string (codes s)) data with
  | Some (data', len) => Some (take (Z.to_nat len) data')
  | None => None
  end.

(** The [while(len--)] loop of [hex2ascii]: [n] is the value of [len] at
    the test, [i] and [j] are [uint8_t]. *)
Fixpoint hex2ascii_loop (n : nat) (data str : list Z) (i j : Z) : list Z * Z :=
  match n with
  | O => (set_index str j 0, j)
  | S n' =>
      let x := Z.shiftr (Z.land (at_index data i) 240) 4 in
      let y := Z.land (at_index data i) 15 in
      let str1 := set_index str j (if 10 <=? x then x + 55 else x + 48) in
      let j1 := u8 (j + 1) in
      let str2 := set_index str1 j1 (if 10 <=? y then y + 55 else y + 48) in
      hex2ascii_loop n' data str2 (u8 (i + 1)) (u8 (j1 + 1))
  end.

Definition hex2ascii (data str : list Z) (len : Z) : list Z * Z :=
  hex2ascii_loop (Z.to_nat (u8 len)) data str 0 0.

(** The string a [char*] denotes: the characters before the first null. *)
Fixpoint read_c_string (mem : list Z) : list Z :=
  match mem with
  | [] => []
  | c :: mem' => if c =? 0 then [] else c :: read_c_string mem'
  end.

(** The string [hex2ascii] leaves in [str] for the bytes [ascii2hex]
    makes of [s]. *)
Definition round_trip (fuel : nat) (s : string) (data str : list Z) : option (list Z) :=
  match ascii2hex fuel (c_string (codes s)) data with
  | Some (data', len) => Some (read_c_string (hex2ascii data' str len).1)
  | None => None
  end.

(** ** The conversion in the words of the specification *)

(** The value of a character in the ranges 0-9, A-F, a-f. *)
Definition hex_value (c : Z) : option Z :=
  if (48 <=? c) && (c <=? 57) then Some (c - 48)
  else if (65 <=? c) && (c <=? 70) then Some (c - 55)
  else if (97 <=? c) && (c <=? 102) then Some (c - 87)
  else None.

(** The valid digits of a text, left to right; the other characters are
    ignored. *)
Definition hex_digits (s : list Z) : list Z := omap hex_value s.

(** Two digits to a byte, the most significant nibble first; a last
    single digit gives a byte whose low nibble is zero. *)
Fixpoint pack_pairs (ds : list Z) : list Z :=
  match ds with
  | [] => []
  | [h] => [16 * h]
  | h :: l :: ds' => (16 * h + l) :: pack_pairs ds'
  end.

Definition ascii_to_hex (s : string) : list Z := pack_pairs (hex_digits (codes s)).

(** The upper-case form of a character a-f. *)
Definition upper (c : Z) : Z := if (97 <=? c) && (c <=? 102) then c - 32 else c.

Definition is_hex (c : Z) : Prop := is_Some (hex_value c).

(** ** A POSIX system: the constants of Linux *)

Definition linux_B (rate : Z) : Z :=
  match baud_loop rate BaudRno_posix
          [0; 1; 2; 3; 4; 5; 6; 7; 8; 9; 10; 11; 12; 13; 14; 15; 4097; 4098; 4099] with
  | Some b => b
  | None => 0
  end.

Definition linux_h : posix_h :=
  mkPosixH 16 4 8 32 128 64 1024 4096 1 2048 128 1024 64 256 48 2 8 16 32 2048 64 48 512
           6 5 linux_B 11 9.

(** A system on which nothing is open and every call succeeds. *)
Definition idle_world : World :=
  mkWorld [] 3 0 [] [] (mkDCB 1200 7 0 0) (mkCOMMTIMEOUTS 10 0 0 0 0)
          (mkTermios 0 5 191 35387 (replicate 32 0) 9 9).

Definition idle_sys : Sys :=
  mkSys 0 (mkDCB 0 0 0 0) (mkCOMMTIMEOUTS 0 0 0 0 0) (mkTermios 0 0 0 0 [] 0 0) idle_world.

End VCP.

Module VCPWrapper.

(** ** The class [Port] (VCPWrapper/VCP.cs) *)

Inductive ParityBit := NoParity | OddParity | EvenParity.

Definition ParityBit_byte (p : ParityBit) : Z :=
  match p with NoParity => 0 | OddParity => 1 | EvenParity => 2 end.

Inductive StopBits := One | Two.

Definition StopBits_byte (s : StopBits) : Z :=
  match s with One => 1 | Two => 2 end.

Inductive Exception :=
| ArgumentException (message : string)
| ArgumentNullException (paramName : string)
| InvalidOperationException (message : string)
| ObjectDisposedException (objectName : string)
| Win32Exception (error : Z).

(** How a method ends. *)
Inductive outcome (A : Type) :=
| Return (a : A)
| Throw (e : Exception).

Arguments Return {A} a.
Arguments Throw {A} e.

Record DataRecivedEventArgs := mkArgs { Data : list Z }.

(** [DataRecived] is the list of the subscribed handlers; [null] is the
    empty list.  The [Timer] object behind [dataPoller] has two flags:
    [dataPoller] tells whether the timer is running, [timerDisposed]
    whether it was disposed. *)
Record Port := mkPort {
  PortName : option string;
  BaudRate : Z;
  Parity : ParityBit;
  StopBits_ : StopBits;
  PortOpen : bool;
  DataRecived : list nat;
  dataPoller : bool;
  timerDisposed : bool }.

(** The process the [Port] lives in: the state of the loaded library and
    the events raised so far, each with the handlers it was delivered to. *)
Record Process := mkProcess {
  native : VCP.Sys;
  raised : list (list nat * DataRecivedEventArgs) }.

Definition set_native (sys : VCP.Sys) (proc : Process) : Process :=
  mkProcess sys (raised proc).

(** [DataRecived?.Invoke(this, args)]. *)
Definition Invoke (handlers : list nat) (args : DataRecivedEventArgs) (proc : Process)
  : Process :=
  mkProcess (native proc) (raised proc ++ [(handlers, args)]).

Definition is_null {A} (l : list A) : bool := match l with [] => true | _ => false end.

(** [Marshal.GetLastWin32Error()]. *)
Definition GetLastWin32Error (proc : Process) : Z := VCP.last_error (VCP.os (native proc)).

(** [Encoding.ASCII.GetBytes]: a character outside ASCII becomes '?'. *)
Definition ASCII_GetBytes (s : string) : list Z :=
  map (λ c, if c <? 128 then c else 63) (VCP.codes s).

Definition BaudRates : list Z :=
  [110; 300; 600; 1200; 2400; 4800; 9600; 14400;
   19200; 38400; 57600; 115200; 128000; 256000].

Definition pollRate : Z := 500.
Definition bufferLength : Z := 500.
Definition byte_MaxValue : Z := 255.

(** The loop of .NET's [Array.BinarySearch]: the index of [value] if it is
    found, otherwise the complement of the index where it would be. *)
Fixpoint BinarySearch_loop (fuel : nat) (array : list Z) (value lo hi : Z) : Z :=
  match fuel with
  | O => Z.lnot lo
  | S fuel' =>
      if lo <=? hi then
        let i := lo + Z.shiftr (hi - lo) 1 in
        let order := at_index array i ?= value in
        match order with
        | Eq => i
        | Lt => BinarySearch_loop fuel' array value (i + 1) hi
        | Gt => BinarySearch_loop fuel' array value lo (i - 1)
        end
      else Z.lnot lo
  end.

Definition BinarySearch (array : list Z) (value : Z) : Z :=
  BinarySearch_loop (length array) array value 0 (Z.of_nat (length array) - 1).

(** The constructor. *)
Definition new_Port (portName : option string) (baudRate : Z)
  (parityBit : ParityBit) (stopBits : StopBits) : outcome Port :=
  if negb (0 <? BinarySearch BaudRates baudRate)
  then Throw (ArgumentException "Unsupported baudRate.")
  else Return (mkPort portName baudRate parityBit stopBits false [] false false).

(** [DataRecived += handler]. *)
Definition subscribe (handler : nat) (this : Port) : Port :=
  mkPort (PortName this) (BaudRate this) (Parity this) (StopBits_ this)
         (PortOpen this) (DataRecived this ++ [handler]) (dataPoller this)
         (timerDisposed this).

Definition set_PortOpen (b : bool) (this : Port) : Port :=
  mkPort (PortName this) (BaudRate this) (Parity this) (StopBits_ this)
         b (DataRecived this) (dataPoller this) (timerDisposed this).

(** [dataPoller.Start()]: a [Timer] that was disposed throws, and raises
    no tick. *)
Definition dataPoller_Start (this : Port) : outcome unit * Port :=
  if timerDisposed this then (Throw (ObjectDisposedException "Timer"), this)
  else
    (Return tt,
     mkPort (PortName this) (BaudRate this) (Parity this) (StopBits_ this)
            (PortOpen this) (DataRecived this) true (timerDisposed this)).

Section Methods.

(** The platform [VCP.dll] was compiled for, and the capacity of the
    scratch buffer ([bufferLength] in the source). *)
Variable pf : VCP.platform.
Variable N : Z.

(** [Poll], the handler of the timer.  [None] when [fuel] calls do not
    finish the tick. *)
Fixpoint Poll (fuel : nat) (this : Port) (proc : Process)
  : option (outcome unit * Process) :=
  match fuel with
  | O => None
  | S fuel' =>
      let buffer := replicate (Z.to_nat N) 0 in
      let '(bytesRecived, buffer, sys) := VCP.poll_COM_port pf buffer N (native proc) in
      let proc := set_native sys proc in
      if bytesRecived <? 0 then
        Some (Throw (Win32Exception (GetLastWin32Error proc)), proc)
      else if 0 <? bytesRecived then
        let proc :=
          if negb (is_null (DataRecived this)) then
            let croppedBuffer := take (Z.to_nat bytesRecived) buffer in
            Invoke (DataRecived this) (mkArgs croppedBuffer) proc
          else proc in
        if bytesRecived =? N then Poll fuel' this proc
        else Some (Return tt, proc)
      else Some (Return tt, proc)
  end.

(** [Open]; the result holds the [Port] as the call leaves it, also when
    it throws: [PortOpen] is set before the timer is started. *)
Definition Open (this : Port) (proc : Process) : outcome unit * Port * Process :=
  if PortOpen this then (Return tt, this, proc)
  else
    match PortName this with
    | None => (Throw (ArgumentNullException "portName"), this, proc)
    | Some name =>
        let '(r, sys) :=
          VCP.init_COM_port pf (ASCII_GetBytes name) (BaudRate this)
            (ParityBit_byte (Parity this)) (StopBits_byte (StopBits_ this)) 0 (native proc) in
        let proc := set_native sys proc in
        if negb (r =? 0) then (Throw (Win32Exception (GetLastWin32Error proc)), this, proc)
        else (dataPoller_Start (set_PortOpen true this), proc)
    end.

Definition Close (this : Port) (proc : Process) : outcome Port * Process :=
  if negb (PortOpen this) then (Return this, proc)
  else
    let proc := set_native (VCP.close_COM_port pf (native proc)) proc in
    (Return (set_PortOpen false this), proc).

(** [SendBytes(byte[] data)]; [None] is [null]. *)
Definition SendBytes (this : Port) (data : option (list Z)) (proc : Process)
  : outcome unit * Process :=
  if negb (PortOpen this) then
    (Throw (InvalidOperationException "Cannot write data to an unopened port."), proc)
  else
    match data with
    | None => (Throw (ArgumentNullException "data"), proc)
    | Some data =>
        if Z.of_nat (length data) =? 0 then
          (Throw (ArgumentException "data must contain 1 or more bytes."), proc)
        else if byte_MaxValue <? Z.of_nat (length data) then
          (Throw (ArgumentException "data must be less than 255 bytes in length."), proc)
        else
          let '(r, sys) :=
            VCP.COM_port_send_buffer pf data (u8 (Z.of_nat (length data))) (native proc) in
          let proc := set_native sys proc in
          if r <? 0 then (Throw (Win32Exception (GetLastWin32Error proc)), proc)
          else (Return tt, proc)
    end.

(** [SendBytes(ushort data)]; [big_endian] tells how the library was built. *)
Definition SendBytes_ushort (big_endian : bool) (this : Port) (data : Z) (proc : Process)
  : outcome unit * Process :=
  if negb (PortOpen this) then
    (Throw (InvalidOperationException "Cannot write data to an unopened port."), proc)
  else
    let '(r, sys) := VCP.COM_port_send_word big_endian pf data (native proc) in
    let proc := set_native sys proc in
    if r <? 0 then (Throw (Win32Exception (GetLastWin32Error proc)), proc)
    else (Return tt, proc).

Definition SendByte (this : Port) (data : Z) (proc : Process) : outcome unit * Process :=
  if negb (PortOpen this) then
    (Throw (InvalidOperationException "Cannot write data to an unopened port."), proc)
  else
    let '(r, sys) := VCP.COM_port_send_byte pf data (native proc) in
    let proc := set_native sys proc in
    if r <? 0 then (Throw (Win32Exception (GetLastWin32Error proc)), proc)
    else (Return tt, proc).

(** [SendString]; [None] is [null], which [Encoding.ASCII.GetBytes]
    refuses before [SendBytes] is entered. *)
Definition SendString (this : Port) (data : option string) (proc : Process)
  : outcome unit * Process :=
  match data with
  | None => (Throw (ArgumentNullException "s"), proc)
  | Some data => SendBytes this (Some (ASCII_GetBytes data)) proc
  end.

(** [dataPoller.Dispose()]: the timer raises no more ticks and cannot be
    started again. *)
Definition dataPoller_Dispose (this : Port) : Port :=
  mkPort (PortName this) (BaudRate this) (Parity this) (StopBits_ this)
         (PortOpen this) (DataRecived this) false true.

(** [Dispose(bool disposing)]; the field [disposedValue] is carried beside
    the [Port]. *)
Definition Dispose_bool (disposing : bool) (this : Port) (disposedValue : bool)
  (proc : Process) : outcome (Port * bool) * Process :=
  if negb disposedValue then
    let this := if disposing then dataPoller_Dispose this else this in
    match Close this proc with
    | (Return this, proc) => (Return (this, true), proc)
    | (Throw e, proc) => (Throw e, proc)
    end
  else (Return (this, disposedValue), proc).

(** [Dispose()]. *)
Definition Dispose (this : Port) (disposedValue : bool) (proc : Process)
  : outcome (Port * bool) * Process :=
  Dispose_bool true this disposedValue proc.

(** The finalizer [~Port()]. *)
Definition Finalize (this : Port) (disposedValue : bool) (proc : Process)
  : outcome (Port * bool) * Process :=
  Dispose_bool false this disposedValue proc.

End Methods.

End VCPWrapper.

(** * Properties

    The definitions the statements below are written with. *)

Import VCP.

(** ** Error codes and handles *)

(** The error codes of the system are those of a 32-bit [int]: positive
    and below 2^31. *)
Definition error_code (e : Z) : Prop := 0 < e < 2147483648.

Definition error_codes_ok (pf : platform) (w : World) : Prop :=
  error_code (bad_handle pf) /\
  Forall (λ r, match r with Fail e => error_code e | Ok _ => True end) (script w).

(** On a POSIX system a failed read "would block" when [errno] is
    [EWOULDBLOCK]; [ReadFile] has no such outcome. *)
Definition would_block (pf : platform) (w : World) : Prop :=
  match pf with
  | Win32 => False
  | Posix hd => last_error w = EWOULDBLOCK hd
  end.

(** The handles the system has given out are below the next one. *)
Definition handles_ok (w : World) : Prop :=
  0 <= fresh w /\ Forall (λ h, 0 <= h < fresh w) (handles w).

(** The world after one read of [len] bytes on [h] took an answer. *)
Definition after_read (h len : Z) (rest : list reply) (w : World) : World :=
  set_script rest (log (OsRead h len) w).

(** ** The loop of [ascii2hex] without its index *)

(** A recursion on the characters that remain before the terminating
    null; it agrees with [ascii2hex_loop] while [i] does not wrap. *)
Fixpoint scan (cs data : list Z) (j mid : Z) : list Z * Z :=
  match cs with
  | [] => (data, if mid =? 0 then j else u8 (j + 1))
  | c :: cs' =>
      let '(data', j', mid') := ascii2hex_char c data j mid in
      scan cs' data' j' mid'
  end.

(** What the loop has in hand between two characters: nothing, or the
    high nibble [h] already stored in [data[j]]. *)
Definition pending_ok (data : list Z) (j mid : Z) (pend : list Z) : Prop :=
  (mid = 0 /\ pend = []) \/
  (mid = 1 /\ exists h, pend = [h] /\ 0 <= h < 16 /\ data !! Z.to_nat j = Some (16 * h)).

(** The character of a nibble: 0-9 give '0'-'9', 10-15 give 'A'-'F'. *)
Definition hex_char (x : Z) : Z := if 10 <=? x then x + 55 else x + 48.

(** [hex_to_ascii] in the words of the specification: two characters for
    each byte, the most significant nibble first. *)
Definition hex_to_ascii (bytes : list Z) : list Z :=
  flat_map (λ b, [hex_char (b / 16); hex_char (b mod 16)]) bytes.

(** The zero digit the round trip shows for an odd number of digits. *)
Definition padding (cs : list Z) : list Z :=
  if Nat.odd (length cs) then [48] else [].

Fixpoint copies (n : nat) (a : ascii) : string :=
  match n with O => EmptyString | S n' => String a (copies n' a) end.

(** A text of 256 characters. *)
Definition long_text : string := copies 256 "A".

(** ** A tick of the timer *)

Definition port_held (proc : VCPWrapper.Process) : Prop :=
  held (hComm (VCPWrapper.native proc)) (os (VCPWrapper.native proc)) = true.

(** What [Poll] does with the bytes [bs] it read: the event, if a handler
    is there. *)
Definition notify (this : VCPWrapper.Port) (bs : list Z) (proc : VCPWrapper.Process)
  : VCPWrapper.Process :=
  if negb (VCPWrapper.is_null (VCPWrapper.DataRecived this))
  then VCPWrapper.Invoke (VCPWrapper.DataRecived this) (VCPWrapper.mkArgs bs) proc
  else proc.

(** The events delivered for the reads [events]. *)
Definition deliveries (this : VCPWrapper.Port) (events : list (list Z))
  : list (list nat * VCPWrapper.DataRecivedEventArgs) :=
  if VCPWrapper.is_null (VCPWrapper.DataRecived this) then []
  else map (λ bs, (VCPWrapper.DataRecived this, VCPWrapper.mkArgs bs)) events.

(** [proc'] is [proc] after [n] reads of [N] bytes that took the answers
    before [rest] and raised [events]. *)
Definition polled (N : Z) (this : VCPWrapper.Port) (n : nat) (events : list (list Z))
  (rest : list reply) (proc proc' : VCPWrapper.Process) : Prop :=
  hComm (VCPWrapper.native proc') = hComm (VCPWrapper.native proc) /\
  handles (os (VCPWrapper.native proc')) = handles (os (VCPWrapper.native proc)) /\
  calls (os (VCPWrapper.native proc'))
  = calls (os (VCPWrapper.native proc))
    ++ replicate n (OsRead (hComm (VCPWrapper.native proc)) N) /\
  script (os (VCPWrapper.native proc')) = rest /\
  VCPWrapper.raised proc' = VCPWrapper.raised proc ++ deliveries this events.

(** The bytes of the read that ends a tick, as events: none for no byte. *)
Definition short_event (last : list Z) : list (list Z) :=
  match last with [] => [] | _ => [last] end.

(** An answer of the system that ends a tick, with the bytes [Poll] gets
    from it: fewer bytes than the buffer holds, or, on a POSIX system,
    "would block". *)
Inductive ends_tick (pf : platform) (N : Z) : reply -> list Z -> Prop :=
| ends_short (last : list Z) :
    Z.of_nat (length last) < N -> ends_tick pf N (Ok last) last
| ends_would_block (hd : posix_h) :
    pf = Posix hd -> ends_tick pf N (Fail (EWOULDBLOCK hd)) [].

(** ** States for the examples *)

(** The library holding the open handle 3, on a system that answers the
    coming calls with [answers]. *)
Definition open_sys (answers : list reply) : Sys :=
  mkSys 3 (mkDCB 1200 7 0 0) (mkCOMMTIMEOUTS 10 0 0 0 0)
        (mkTermios 0 5 191 35387 (replicate 32 0) 9 9)
        (mkWorld [3] 4 0 [] answers (mkDCB 9600 8 0 0) (mkCOMMTIMEOUTS MAXDWORD 0 0 0 0)
                 (mkTermios 20 4 2239 33281 (replicate 32 0) 13 13)).

(** The library before any call, on a system that answers with [answers]. *)
Definition closed_sys (answers : list reply) : Sys :=
  set_os (set_script answers idle_world) idle_sys.

(** An open [Port] with one handler, and one with none. *)
Definition listening : VCPWrapper.Port :=
  VCPWrapper.mkPort (Some "COM7"%string) 9600 VCPWrapper.NoParity VCPWrapper.One
                    true [1%nat] true false.

Definition unheard : VCPWrapper.Port :=
  VCPWrapper.mkPort (Some "COM7"%string) 9600 VCPWrapper.NoParity VCPWrapper.One
                    true [] true false.

Definition process (answers : list reply) : VCPWrapper.Process :=
  VCPWrapper.mkProcess (open_sys answers) [].

Ltac sys_simpl :=
  cbn [os hComm DCBinitial TIMEOUTinitial termiosInitial
       set_os set_hComm set_DCBinitial set_TIMEOUTinitial set_termiosInitial
       fst snd negb] in *.

(** ** Systems whose calls succeed, and the writes *)

(** Every coming call to the system succeeds. *)
Definition calm (w : World) : Prop :=
  Forall (λ r, exists bs, r = Ok bs) (script w).

(** The world after the call [c] took a successful answer. *)
Definition step_ok (c : os_call) (w : World) : World :=
  set_script (tail (script w)) (log c w).

(** The speed constant of a rate of a table, or [old] for another rate. *)
Definition speed_for (baudRate : Z) (BaudRno BaudR : list Z) (old : Z) : Z :=
  match baud_loop baudRate BaudRno BaudR with Some b => b | None => old end.

(** The line flags of a POSIX system that [PARODD] shares no bit with. *)
Definition PARODD_apart (hd : posix_h) : Prop :=
  Forall (λ m, Z.land (PARODD hd) m = 0)
         [CLOCAL hd; CREAD hd; HUPCL hd; CSTOPB hd; PARENB hd; CSIZE hd; CS8 hd].

(** The body the three send functions share: one write of [bytes]. *)
Definition written (pf : platform) (bytes : list Z) (st : Sys) : Z * Sys :=
  match pf with
  | Win32 =>
      match os_write Win32 (hComm st) bytes (os st) with
      | (Some n, w) => (i32 n, set_os w st)
      | (None, w) => (i32 (u32 (0 - last_error w)), set_os w st)
      end
  | Posix hd =>
      let '(put, w) := os_write (Posix hd) (hComm st) bytes (os st) in
      let len := match put with Some n => i32 n | None => -1 end in
      if 0 <=? len then (len, set_os w st) else (i32 (0 - last_error w), set_os w st)
  end.

(** A line left with odd parity: [PARODD] is set in [c_cflag]. *)
Definition odd_parity_sys : Sys :=
  set_os (set_dev_termios (mkTermios 0 5 703 35387 (replicate 32 0) 9 9) idle_world) idle_sys.

(** A [Port] that is not open. *)
Definition closed_port : VCPWrapper.Port :=
  VCPWrapper.mkPort (Some "COM7"%string) 9600 VCPWrapper.NoParity VCPWrapper.One
                    false [] false false.

(** ** Machine integers *)

Lemma u8_small (z : Z) : 0 <= z < 256 -> u8 z = z.
Proof. intros H. unfold u8. apply Z.mod_small. lia. Qed.

Lemma u16_small (z : Z) : 0 <= z < 65536 -> u16 z = z.
Proof. intros H. unfold u16. apply Z.mod_small. lia. Qed.

Lemma u16_range (z : Z) : 0 <= u16 z < 65536.
Proof. unfold u16. apply Z.mod_pos_bound. lia. Qed.

Lemma i32_small (z : Z) : -2147483648 <= z < 2147483648 -> i32 z = z.
Proof. intros H. unfold i32. rewrite Z.mod_small by lia. lia. Qed.

Lemma i32_minus_dword (e : Z) : error_code e -> i32 (u32 (0 - e)) = - e.
Proof.
  unfold error_code, i32, u32. intros H.
  replace ((0 - e) mod 4294967296) with (4294967296 - e)
    by (apply Z.mod_unique with (-1); lia).
  replace ((4294967296 - e + 2147483648) mod 4294967296) with (2147483648 - e)
    by (apply Z.mod_unique with 1; lia).
  lia.
Qed.

(** ** [ascii2hex] *)

Lemma at_index_middle (pre post : list Z) (c : Z) :
  at_index (pre ++ c :: post) (Z.of_nat (length pre)) = c.
Proof.
  unfold at_index. rewrite Nat2Z.id.
  rewrite lookup_app_r by lia. rewrite Nat.sub_diag. reflexivity.
Qed.

Lemma ascii2hex_loop_scan (cs : list Z) :
  forall (pre data : list Z) (j mid : Z) (fuel : nat),
    Forall (λ c, c ≠ 0) cs ->
    (length pre + length cs <= 255)%nat ->
    (length cs < fuel)%nat ->
    ascii2hex_loop fuel (pre ++ c_string cs) data (Z.of_nat (length pre)) j mid
    = Some (scan cs data j mid).
Proof.
  induction cs as [|c cs IH]; intros pre data j mid fuel Hnz Hlen Hfuel.
  - destruct fuel as [|fuel]; [simpl in Hfuel; lia|].
    simpl. unfold c_string. simpl. rewrite at_index_middle. reflexivity.
  - destruct fuel as [|fuel]; [simpl in Hfuel; lia|].
    apply Forall_cons in Hnz as [Hc Hnz].
    unfold c_string in *. cbn [ascii2hex_loop scan app].
    rewrite at_index_middle.
    destruct (Z.eqb_spec c 0) as [->|_]; [contradiction|].
    destruct (ascii2hex_char c data j mid) as [[data' j'] mid'].
    rewrite u8_small by (simpl in Hlen; lia).
    replace (Z.of_nat (length pre) + 1) with (Z.of_nat (length (pre ++ [c])))
      by (rewrite length_app; simpl; lia).
    replace (pre ++ c :: cs ++ [0]) with ((pre ++ [c]) ++ cs ++ [0])
      by (rewrite <- app_assoc; reflexivity).
    apply IH; [assumption | rewrite length_app; simpl in *; lia | simpl in Hfuel; lia].
Qed.

Lemma hex_value_range (c v : Z) : hex_value c = Some v -> 0 <= v < 16.
Proof.
  unfold hex_value. intros H.
  repeat match type of H with
         | context [if ?b then _ else _] => destruct b eqn:?
         end; inversion H; subst; lia.
Qed.

Lemma ascii2hex_char_digit (c v : Z) (data : list Z) (j mid : Z) :
  hex_value c = Some v -> ascii2hex_char c data j mid = pack_nibble data j mid v.
Proof.
  unfold hex_value, ascii2hex_char. intros H.
  repeat match type of H with
         | context [if ?b then _ else _] => destruct b
         end; inversion H; reflexivity.
Qed.

Lemma ascii2hex_char_other (c : Z) (data : list Z) (j mid : Z) :
  hex_value c = None -> ascii2hex_char c data j mid = (data, j, mid).
Proof.
  unfold hex_value, ascii2hex_char. intros H.
  repeat match type of H with
         | context [if ?b then _ else _] => destruct b
         end; solve [inversion H | reflexivity].
Qed.

Lemma nibble_cases (v : Z) :
  0 <= v < 16 ->
  v = 0 \/ v = 1 \/ v = 2 \/ v = 3 \/ v = 4 \/ v = 5 \/ v = 6 \/ v = 7 \/
  v = 8 \/ v = 9 \/ v = 10 \/ v = 11 \/ v = 12 \/ v = 13 \/ v = 14 \/ v = 15.
Proof. lia. Qed.

Lemma high_nibble (v : Z) : 0 <= v < 16 -> u8 (Z.shiftl v 4) = 16 * v.
Proof.
  intros H. rewrite Z.shiftl_mul_pow2 by lia. change (2 ^ 4) with 16.
  rewrite u8_small; lia.
Qed.

Lemma low_nibble (h v : Z) :
  0 <= h < 16 -> 0 <= v < 16 -> u8 (Z.lor (16 * h) v) = 16 * h + v.
Proof.
  intros Hh Hv.
  destruct (nibble_cases h Hh) as [->|[->|[->|[->|[->|[->|[->|[->|[->|[->|[->|[->|[->|[->|[->| ->]]]]]]]]]]]]]]];
  destruct (nibble_cases v Hv) as [->|[->|[->|[->|[->|[->|[->|[->|[->|[->|[->|[->|[->|[->|[->| ->]]]]]]]]]]]]]]];
  reflexivity.
Qed.

Lemma hex_digits_cons_digit (c v : Z) (cs : list Z) :
  hex_value c = Some v -> hex_digits (c :: cs) = v :: hex_digits cs.
Proof. intros H. unfold hex_digits. simpl. rewrite H. reflexivity. Qed.

Lemma hex_digits_cons_other (c : Z) (cs : list Z) :
  hex_value c = None -> hex_digits (c :: cs) = hex_digits cs.
Proof. intros H. unfold hex_digits. simpl. rewrite H. reflexivity. Qed.

Lemma scan_spec (cs : list Z) :
  forall (data : list Z) (j mid : Z) (pend : list Z),
    pending_ok data j mid pend ->
    0 <= j ->
    let out := pack_pairs (pend ++ hex_digits cs) in
    j + Z.of_nat (length out) <= 255 ->
    (Z.to_nat j + length out <= length data)%nat ->
    exists data',
      scan cs data j mid = (data', j + Z.of_nat (length out)) /\
      take (Z.to_nat j + length out) data' = take (Z.to_nat j) data ++ out.
Proof.
  induction cs as [|c cs IH]; intros data j mid pend Hp Hj out Hwrap Hcap; subst out.
  - exists data. cbn [scan hex_digits omap list_omap] in *. rewrite app_nil_r in *.
    destruct Hp as [[-> ->]|[-> (h & -> & Hh & Hlook)]]; simpl in *.
    + split; [f_equal; lia|]. rewrite Nat.add_0_r, app_nil_r. reflexivity.
    + rewrite u8_small by lia. split; [reflexivity|].
      rewrite Nat.add_1_r. erewrite take_S_r by eassumption. reflexivity.
  - cbn [scan]. destruct (hex_value c) as [v|] eqn:Hv.
    + pose proof (hex_value_range _ _ Hv) as Hr.
      rewrite (ascii2hex_char_digit _ _ _ _ _ Hv).
      rewrite (hex_digits_cons_digit _ _ _ Hv) in *.
      destruct Hp as [[-> ->]|[-> (h & -> & Hh & Hlook)]]; unfold pack_nibble; simpl "=?".
      * cbn [app] in *.
        destruct (IH (set_index data j (u8 (Z.shiftl v 4))) j 1 [v]) as (data' & Hs & Ht).
        -- right. split; [reflexivity|]. exists v. repeat split; try lia.
           rewrite high_nibble by assumption. unfold set_index.
           apply list_lookup_insert_eq.
           assert (1 <= length (pack_pairs (v :: hex_digits cs)))%nat
             by (destruct (hex_digits cs); simpl; lia).
           lia.
        -- assumption.
        -- exact Hwrap.
        -- unfold set_index. rewrite length_insert. exact Hcap.
        -- exists data'. split; [exact Hs|]. cbn [app] in Ht. rewrite Ht.
           unfold set_index. rewrite take_insert_ge by lia. reflexivity.
      * cbn [app pack_pairs length] in *.
        unfold at_index. rewrite Hlook. cbn [from_option id].
        rewrite low_nibble by assumption.
        rewrite u8_small by lia.
        destruct (IH (set_index data j (16 * h + v)) (j + 1) 0 []) as (data' & Hs & Ht).
        -- left. split; reflexivity.
        -- lia.
        -- cbn [app]. lia.
        -- unfold set_index. rewrite length_insert. cbn [app]. lia.
        -- exists data'. cbn [app] in Hs, Ht. split.
           ++ rewrite Hs. f_equal. lia.
           ++ replace (Z.to_nat j + S (length (pack_pairs (hex_digits cs))))%nat
                with (Z.to_nat (j + 1) + length (pack_pairs (hex_digits cs)))%nat by lia.
              rewrite Ht. unfold set_index.
              replace (Z.to_nat (j + 1)) with (S (Z.to_nat j)) by lia.
              erewrite take_S_r
                by (apply list_lookup_insert_eq; apply lookup_lt_Some in Hlook; exact Hlook).
              rewrite take_insert_ge by lia.
              rewrite <- app_assoc. reflexivity.
    + rewrite (ascii2hex_char_other _ _ _ _ Hv).
      rewrite (hex_digits_cons_other _ _ Hv) in *.
      apply IH; assumption.
Qed.

Lemma pack_pairs_length_le (ds : list Z) :
  (length (pack_pairs ds) <= length ds)%nat /\
  forall h, (length (pack_pairs (h :: ds)) <= S (length ds))%nat.
Proof.
  induction ds as [|d ds [IH1 IH2]].
  - split; [simpl; lia | intros h; simpl; lia].
  - split; [exact (IH2 d)|]. intros h. cbn [pack_pairs length]. lia.
Qed.

Lemma hex_digits_length_le (cs : list Z) : (length (hex_digits cs) <= length cs)%nat.
Proof.
  induction cs as [|c cs IH]; [simpl; lia|].
  destruct (hex_value c) as [v|] eqn:Hv.
  - rewrite (hex_digits_cons_digit _ _ _ Hv). simpl. lia.
  - rewrite (hex_digits_cons_other _ _ Hv). simpl. lia.
Qed.

Lemma ascii2hex_correct (cs data : list Z) (fuel : nat) :
  Forall (λ c, c ≠ 0) cs ->
  (length cs <= 255)%nat ->
  (length (pack_pairs (hex_digits cs)) <= length data)%nat ->
  (length cs < fuel)%nat ->
  exists data',
    ascii2hex fuel (c_string cs) data
    = Some (data', Z.of_nat (length (pack_pairs (hex_digits cs)))) /\
    take (length (pack_pairs (hex_digits cs))) data' = pack_pairs (hex_digits cs).
Proof.
  intros Hnz Hlen Hcap Hfuel. unfold ascii2hex.
  assert (Hloop : ascii2hex_loop fuel (c_string cs) data 0 0 0 = Some (scan cs data 0 0))
    by (apply (ascii2hex_loop_scan cs [] data 0 0 fuel Hnz); simpl; lia).
  rewrite Hloop.
  destruct (scan_spec cs data 0 0 []) as (data' & Hs & Ht).
  - left. split; reflexivity.
  - lia.
  - simpl. pose proof (proj1 (pack_pairs_length_le (hex_digits cs))).
    pose proof (hex_digits_length_le cs). lia.
  - simpl. exact Hcap.
  - exists data'. simpl in Hs, Ht. rewrite Hs. split; [reflexivity | exact Ht].
Qed.

Lemma codes_copies (n : nat) (a : ascii) :
  codes (copies n a) = replicate n (Z.of_N (N_of_ascii a)).
Proof. induction n as [|n IH]; simpl; [reflexivity | rewrite IH; reflexivity]. Qed.

Lemma ascii2hex_loop_long (fuel : nat) :
  forall (data : list Z) (i j mid : Z),
    0 <= i < 256 ->
    ascii2hex_loop fuel (c_string (codes long_text)) data i j mid = None.
Proof.
  induction fuel as [|fuel IH]; intros data i j mid Hi; [reflexivity|].
  cbn [ascii2hex_loop].
  assert (Hc : at_index (c_string (codes long_text)) i = 65).
  { unfold long_text. rewrite codes_copies. unfold at_index, c_string.
    rewrite lookup_app_l by (rewrite length_replicate; lia).
    rewrite lookup_replicate_2 by lia. reflexivity. }
  rewrite Hc. simpl "=?".
  destruct (ascii2hex_char 65 data j mid) as [[data' j'] mid'].
  apply IH. unfold u8. apply Z.mod_pos_bound. lia.
Qed.

(** C4 (amended).  For a null-terminated text of at most 255 characters
    ([ascii2hex] counts them in a [uint8_t]) and an array that holds the
    result, [ascii2hex] terminates and hands back [ascii_to_hex s]: the
    characters outside 0-9, A-F, a-f are ignored, the valid digits are
    packed two to a byte, the most significant nibble first, and a last
    single digit gives a byte whose low nibble is zero.  The returned
    length is the number of those bytes.  In particular "A4a38" and
    "A4-a3 8" both give the bytes A4, A3, 80. *)
Theorem ascii2hex_packs_digits :
  (forall (s : string) (data : list Z) (fuel : nat),
      Forall (λ c, c ≠ 0) (codes s) ->
      (length (codes s) <= 255)%nat ->
      (length (ascii_to_hex s) <= length data)%nat ->
      (length (codes s) < fuel)%nat ->
      ascii2hex_bytes fuel s data = Some (ascii_to_hex s) /\
      snd <$> ascii2hex fuel (c_string (codes s)) data
      = Some (Z.of_nat (length (ascii_to_hex s)))) /\
  ascii2hex_bytes 6 "A4a38" (replicate 3 0) = Some [164; 163; 128] /\
  ascii2hex_bytes 8 "A4-a3 8" (replicate 3 0) = Some [164; 163; 128].
Proof.
  split; [|split; reflexivity].
  intros s data fuel Hnz Hlen Hcap Hfuel.
  destruct (ascii2hex_correct (codes s) data fuel Hnz Hlen Hcap Hfuel) as (data' & Ha & Ht).
  unfold ascii2hex_bytes, ascii_to_hex. rewrite Ha. cbn [fmap option_fmap option_map snd].
  rewrite Nat2Z.id, Ht. split; reflexivity.
Qed.

Lemma ascii2hex_packs_digits_witness :
  (length (codes "A4-a3 8") <= 255)%nat /\
  ascii2hex_bytes 8 "A4-a3 8" (replicate 3 7) = Some (ascii_to_hex "A4a38").
Proof.
  split; [simpl; lia|].
  apply (proj1 ascii2hex_packs_digits "A4-a3 8"%string (replicate 3 7) 8%nat).
  - repeat (constructor; [discriminate|]). constructor.
  - simpl; lia.
  - simpl; lia.
  - simpl; lia.
Defined.

(** C4, as stated, fails on a text of 256 characters: the index [i] wraps
    to 0 before it reaches the terminating null, so no number of
    iterations ends the loop. *)
Lemma ascii2hex_long_text_diverges :
  length (codes long_text) = 256%nat /\
  ~ exists (fuel : nat) (data bytes : list Z),
      ascii2hex_bytes fuel long_text data = Some bytes.
Proof.
  split; [unfold long_text; rewrite codes_copies; apply length_replicate|].
  intros (fuel & data & bytes & H). unfold ascii2hex_bytes, ascii2hex in H.
  rewrite ascii2hex_loop_long in H by lia. discriminate.
Qed.

(** ** [hex2ascii] and the round trip *)

Lemma byte_high (b : Z) : 0 <= b < 256 -> Z.shiftr (Z.land b 240) 4 = b / 16.
Proof.
  intros H. rewrite Z.shiftr_land. change (Z.shiftr 240 4) with (Z.ones 4).
  rewrite Z.land_ones by lia. rewrite Z.shiftr_div_pow2 by lia.
  change (2 ^ 4) with 16. apply Z.mod_small.
  split; [apply Z.div_pos; lia | apply Z.div_lt_upper_bound; lia].
Qed.

Lemma byte_low (b : Z) : Z.land b 15 = b mod 16.
Proof. change 15 with (Z.ones 4). rewrite Z.land_ones by lia. reflexivity. Qed.

Lemma hex_char_pos (x : Z) : 0 <= x -> hex_char x ≠ 0.
Proof. unfold hex_char. intros H. destruct (10 <=? x); lia. Qed.

Lemma hex2ascii_loop_spec (bytes : list Z) :
  forall (pre post str : list Z) (j : Z),
    Forall (λ b, 0 <= b < 256) bytes ->
    (length pre + length bytes <= 255)%nat ->
    0 <= j ->
    j + 2 * Z.of_nat (length bytes) <= 255 ->
    (Z.to_nat j + 2 * length bytes < length str)%nat ->
    exists str',
      hex2ascii_loop (length bytes) (pre ++ bytes ++ post) str (Z.of_nat (length pre)) j
      = (str', j + 2 * Z.of_nat (length bytes)) /\
      take (Z.to_nat j + 2 * length bytes) str' = take (Z.to_nat j) str ++ hex_to_ascii bytes /\
      str' !! (Z.to_nat j + 2 * length bytes)%nat = Some 0.
Proof.
  induction bytes as [|b bytes IH]; intros pre post str j Hb Hi Hj Hwrap Hcap.
  - exists (set_index str j 0). simpl in *. unfold set_index.
    rewrite Nat.add_0_r. split; [f_equal; lia|]. split.
    + rewrite take_insert_ge by lia. rewrite app_nil_r. reflexivity.
    + apply list_lookup_insert_eq. lia.
  - apply Forall_cons in Hb as [Hb0 Hb].
    cbn [hex2ascii_loop length]. cbn [app]. rewrite at_index_middle.
    rewrite byte_high by assumption. rewrite byte_low.
    simpl length in *.
    rewrite (u8_small (j + 1)) by lia. rewrite (u8_small (j + 1 + 1)) by lia.
    rewrite u8_small by lia.
    set (str2 := set_index (set_index str j (if 10 <=? b / 16 then b / 16 + 55 else b / 16 + 48))
                   (j + 1) (if 10 <=? b mod 16 then b mod 16 + 55 else b mod 16 + 48)).
    assert (Hlen2 : length str2 = length str)
      by (unfold str2, set_index; rewrite !length_insert; reflexivity).
    destruct (IH (pre ++ [b]) post str2 (j + 1 + 1)) as (str' & Hs & Ht & Hz).
    + assumption.
    + rewrite length_app. simpl. lia.
    + lia.
    + lia.
    + rewrite Hlen2. lia.
    + exists str'.
      replace (Z.of_nat (length (pre ++ [b]))) with (Z.of_nat (length pre) + 1) in Hs
        by (rewrite length_app; simpl; lia).
      rewrite <- app_assoc in Hs. cbn [app] in Hs.
      replace (Z.to_nat (j + 1 + 1) + 2 * length bytes)%nat
        with (Z.to_nat j + 2 * S (length bytes))%nat in Ht, Hz by lia.
      split; [rewrite Hs; f_equal; lia|]. split; [|exact Hz].
      rewrite Ht. cbn [hex_to_ascii flat_map app].
      replace (Z.to_nat (j + 1 + 1)) with (S (S (Z.to_nat j))) by lia.
      unfold str2, set_index.
      replace (Z.to_nat (j + 1)) with (S (Z.to_nat j)) by lia.
      erewrite take_S_r by (apply list_lookup_insert_eq; rewrite length_insert; lia).
      rewrite take_insert_ge by lia.
      erewrite take_S_r by (apply list_lookup_insert_eq; lia).
      rewrite take_insert_ge by lia.
      rewrite <- !app_assoc. reflexivity.
Qed.

Lemma read_c_string_app (cs rest : list Z) :
  Forall (λ c, c ≠ 0) cs -> read_c_string (cs ++ 0 :: rest) = cs.
Proof.
  induction cs as [|c cs IH]; intros H; [reflexivity|].
  apply Forall_cons in H as [Hc H]. simpl.
  destruct (Z.eqb_spec c 0); [contradiction|]. rewrite IH by assumption. reflexivity.
Qed.

Lemma read_c_string_take (mem cs : list Z) (n : nat) :
  Forall (λ c, c ≠ 0) cs -> take n mem = cs -> mem !! n = Some 0 ->
  read_c_string mem = cs.
Proof.
  intros Hnz Htake Hz.
  rewrite <- (take_drop n mem). rewrite (drop_S _ _ _ Hz). rewrite Htake.
  apply read_c_string_app. assumption.
Qed.

Lemma pack_pairs_double (ds : list Z) :
  (2 * length (pack_pairs ds) <= length ds + 1)%nat /\
  forall h, (2 * length (pack_pairs (h :: ds)) <= length ds + 2)%nat.
Proof.
  induction ds as [|d ds [IH1 IH2]].
  - split; [simpl; lia | intros h; simpl; lia].
  - split; [specialize (IH2 d); simpl length in *; lia|].
    intros h. cbn [pack_pairs length]. lia.
Qed.

Lemma pack_pairs_bytes (ds : list Z) :
  Forall (λ d, 0 <= d < 16) ds ->
  Forall (λ b, 0 <= b < 256) (pack_pairs ds) /\
  forall h, 0 <= h < 16 -> Forall (λ b, 0 <= b < 256) (pack_pairs (h :: ds)).
Proof.
  induction ds as [|d ds IH]; intros H.
  - split; [constructor|]. intros h Hh. simpl. repeat constructor; lia.
  - apply Forall_cons in H as [Hd H]. destruct (IH H) as [IH1 IH2].
    split; [apply IH2; assumption|]. intros h Hh. cbn [pack_pairs].
    constructor; [lia | assumption].
Qed.

Lemma hex_digits_range (cs : list Z) : Forall (λ d, 0 <= d < 16) (hex_digits cs).
Proof.
  induction cs as [|c cs IH]; [constructor|].
  destruct (hex_value c) as [v|] eqn:Hv.
  - rewrite (hex_digits_cons_digit _ _ _ Hv). constructor; [|assumption].
    eapply hex_value_range; eassumption.
  - rewrite (hex_digits_cons_other _ _ Hv). assumption.
Qed.

Lemma hex_char_value (c v : Z) : hex_value c = Some v -> hex_char v = upper c.
Proof.
  unfold hex_value, hex_char, upper. intros H.
  repeat match type of H with
         | context [if ?b then _ else _] => destruct b eqn:?
         end; inversion H; subst;
  repeat match goal with
         | |- context [if ?b then _ else _] => destruct b eqn:?
         end; lia.
Qed.

Lemma hex_to_ascii_pair (h l : Z) (bytes : list Z) :
  0 <= h < 16 -> 0 <= l < 16 ->
  hex_to_ascii ((16 * h + l) :: bytes) = hex_char h :: hex_char l :: hex_to_ascii bytes.
Proof.
  intros Hh Hl. unfold hex_to_ascii. cbn [flat_map app].
  replace ((16 * h + l) / 16) with h by (apply Z.div_unique with l; lia).
  replace ((16 * h + l) mod 16) with l by (apply Z.mod_unique with h; lia).
  reflexivity.
Qed.

Lemma hex_to_ascii_digits (cs : list Z) :
  (Forall is_hex cs ->
   hex_to_ascii (pack_pairs (hex_digits cs)) = map upper cs ++ padding cs) /\
  (forall c, Forall is_hex (c :: cs) ->
   hex_to_ascii (pack_pairs (hex_digits (c :: cs))) = map upper (c :: cs) ++ padding (c :: cs)).
Proof.
  induction cs as [|c' cs [IH1 IH2]].
  - split; [reflexivity|]. intros c H. apply Forall_cons in H as [[v Hv] _].
    rewrite (hex_digits_cons_digit _ _ _ Hv). cbn [hex_digits omap list_omap pack_pairs].
    pose proof (hex_value_range _ _ Hv) as Hr.
    replace (16 * v) with (16 * v + 0) by lia.
    rewrite hex_to_ascii_pair by lia.
    rewrite (hex_char_value _ _ Hv). reflexivity.
  - split; [apply IH2|]. intros c H.
    apply Forall_cons in H as [[v Hv] H]. pose proof H as H'.
    apply Forall_cons in H' as [[v' Hv'] Hcs].
    rewrite (hex_digits_cons_digit _ _ _ Hv), (hex_digits_cons_digit _ _ _ Hv').
    cbn [pack_pairs].
    rewrite hex_to_ascii_pair by (eapply hex_value_range; eassumption).
    rewrite (hex_char_value _ _ Hv), (hex_char_value _ _ Hv'), (IH1 Hcs).
    unfold padding. cbn [map app length]. rewrite Nat.odd_succ, Nat.even_succ.
    reflexivity.
Qed.

Lemma is_hex_nonzero (cs : list Z) : Forall is_hex cs -> Forall (λ c, c ≠ 0) cs.
Proof.
  intros H. eapply Forall_impl; [exact H|].
  intros c [v Hv] ->. vm_compute in Hv. discriminate.
Qed.

Lemma hex_to_ascii_nonzero (bytes : list Z) :
  Forall (λ b, 0 <= b < 256) bytes -> Forall (λ c, c ≠ 0) (hex_to_ascii bytes).
Proof.
  induction 1 as [|b bytes Hb H IH]; [constructor|].
  unfold hex_to_ascii. cbn [flat_map app].
  constructor; [apply hex_char_pos, Z.div_pos; lia|].
  constructor; [apply hex_char_pos, Z.mod_pos_bound; lia | exact IH].
Qed.

Lemma round_trip_correct (cs data str : list Z) (fuel : nat) :
  Forall is_hex cs ->
  (length cs <= 254)%nat ->
  (length (pack_pairs (hex_digits cs)) <= length data)%nat ->
  (2 * length (pack_pairs (hex_digits cs)) < length str)%nat ->
  (length cs < fuel)%nat ->
  exists data' len,
    ascii2hex fuel (c_string cs) data = Some (data', len) /\
    read_c_string (hex2ascii data' str len).1 = map upper cs ++ padding cs.
Proof.
  intros Hhex Hlen Hdata Hstr Hfuel.
  destruct (ascii2hex_correct cs data fuel) as (data' & Ha & Ht);
    [apply is_hex_nonzero; assumption | lia | assumption | assumption |].
  exists data', (Z.of_nat (length (pack_pairs (hex_digits cs)))).
  split; [exact Ha|].
  set (bytes := pack_pairs (hex_digits cs)) in *.
  assert (Hn : (2 * length bytes <= 255)%nat).
  { pose proof (proj1 (pack_pairs_double (hex_digits cs))).
    pose proof (hex_digits_length_le cs). subst bytes. lia. }
  assert (Hbytes : Forall (λ b, 0 <= b < 256) bytes)
    by (apply pack_pairs_bytes, hex_digits_range).
  unfold hex2ascii. rewrite u8_small by lia. rewrite Nat2Z.id.
  destruct (hex2ascii_loop_spec bytes [] (drop (length bytes) data') str 0)
    as (str' & Hs & Htk & Hz); [assumption | simpl; lia | lia | lia | simpl; lia |].
  cbn [app length] in Hs. change (Z.of_nat 0) with 0 in Hs.
  rewrite <- Ht in Hs at 2. rewrite take_drop in Hs.
  rewrite Hs. cbn [fst].
  rewrite <- (proj1 (hex_to_ascii_digits cs) Hhex).
  apply read_c_string_take with (n := (Z.to_nat 0 + 2 * length bytes)%nat).
  - apply hex_to_ascii_nonzero. assumption.
  - rewrite Htk. reflexivity.
  - exact Hz.
Qed.

(** C5 (amended).  For a text [s] of at most 254 characters, all of them
    in 0-9, A-F, a-f, and arrays that hold the results,
    [hex2ascii(ascii2hex(s))] is the upper-case form of [s] when [s] has
    an even number of characters, and that form followed by the
    character '0' when the number is odd. *)
Theorem round_trip_upper (s : string) (data str : list Z) (fuel : nat) :
  Forall is_hex (codes s) ->
  (length (codes s) <= 254)%nat ->
  (length (ascii_to_hex s) <= length data)%nat ->
  (2 * length (ascii_to_hex s) < length str)%nat ->
  (length (codes s) < fuel)%nat ->
  round_trip fuel s data str = Some (map upper (codes s) ++ padding (codes s)).
Proof.
  intros Hhex Hlen Hdata Hstr Hfuel.
  destruct (round_trip_correct (codes s) data str fuel Hhex Hlen Hdata Hstr Hfuel)
    as (data' & len & Ha & Hr).
  unfold round_trip. rewrite Ha, Hr. reflexivity.
Qed.

Lemma round_trip_upper_witness :
  Forall is_hex (codes "a4C3") /\
  round_trip 5 "a4C3" (replicate 2 0) (replicate 5 1) = Some (codes "A4C3").
Proof.
  assert (H : Forall is_hex (codes "a4C3"))
    by (repeat (constructor; [eexists; reflexivity|]); constructor).
  split; [exact H|].
  apply (round_trip_upper "a4C3"%string (replicate 2 0) (replicate 5 1) 5%nat H);
    simpl; lia.
Defined.

(** C5, as stated, fails on a text with an odd number of digits: the
    round trip of "A4a38" is "A4A380", not the upper-case form "A4A38". *)
Lemma round_trip_odd_appends_zero :
  round_trip 6 "A4a38" (replicate 3 0) (replicate 7 0) = Some (codes "A4A380") /\
  map upper (codes "A4a38") = codes "A4A38" /\
  codes "A4A380" ≠ codes "A4A38".
Proof. split; [reflexivity|]. split; [reflexivity | discriminate]. Qed.

(** ** [poll_COM_port] *)

Lemma on_handle_fail (pf : platform) (c : os_call) (h e : Z) (w w' : World) :
  error_codes_ok pf w ->
  on_handle pf c h w = (Fail e, w') -> last_error w' = e /\ error_code e.
Proof.
  intros [Hbad Hs]. unfold on_handle, answer.
  destruct (held h (log c w)).
  - cbn [script log]. destruct (script w) as [|[bs|e'] rs] eqn:Hscript; intros H; inversion H; subst.
    apply Forall_cons in Hs as [He _]. split; [reflexivity | exact He].
  - intros H. inversion H; subst. split; [reflexivity | exact Hbad].
Qed.

Lemma os_read_fail (pf : platform) (h len : Z) (w w' : World) :
  error_codes_ok pf w ->
  os_read pf h len w = (None, w') -> error_code (last_error w').
Proof.
  intros Hok. unfold os_read.
  destruct (on_handle pf (OsRead h len) h w) as [[bs|e] w1] eqn:Hc; intros H; inversion H; subst.
  destruct (on_handle_fail _ _ _ _ _ _ Hok Hc) as [-> He]. exact He.
Qed.

Lemma os_read_some (pf : platform) (h len : Z) (w w' : World) (bs : list Z) :
  os_read pf h len w = (Some bs, w') -> (length bs <= Z.to_nat len)%nat.
Proof.
  unfold os_read.
  destruct (on_handle pf (OsRead h len) h w) as [[bs'|e] w1]; intros H; inversion H; subst.
  rewrite length_take. lia.
Qed.

(** C1.  Whatever the system answers to the read of [poll_COM_port]: when
    bytes are read the result is their number; when the read fails and
    "would block" the result is 0, a read of no byte and not an error;
    the result is negative only when the read fails otherwise, and it is
    then minus the error code of the system. *)
Theorem poll_COM_port_would_block
  (pf : platform) (buffer : list Z) (len : Z) (st : Sys) :
  error_codes_ok pf (os st) ->
  let '(got, w) := os_read pf (hComm st) (u16 len) (os st) in
  let '(r, buffer', st') := poll_COM_port pf buffer len st in
  os st' = w /\
  match got with
  | Some bs => r = Z.of_nat (length bs) /\ buffer' = fill buffer bs
  | None =>
      (would_block pf w -> r = 0) /\
      (~ would_block pf w -> r = - last_error w /\ r < 0)
  end.
Proof.
  intros Hok. unfold poll_COM_port.
  destruct (os_read pf (hComm st) (u16 len) (os st)) as [got w] eqn:Hread.
  pose proof (u16_range len) as Hlen.
  destruct pf as [|hd]; rewrite Hread.
  - destruct got as [bs|].
    + apply os_read_some in Hread. split; [reflexivity|].
      split; [apply i32_small; lia | reflexivity].
    + apply os_read_fail in Hread; [|assumption]. split; [reflexivity|].
      split; [intros []|]. intros _. rewrite i32_minus_dword by assumption.
      unfold error_code in Hread. lia.
  - destruct got as [bs|].
    + apply os_read_some in Hread.
      rewrite i32_small by lia.
      destruct (Z.leb_spec 0 (Z.of_nat (length bs))); [|lia].
      split; [reflexivity|]. split; reflexivity.
    + apply os_read_fail in Hread; [|assumption]. simpl "<=?". cbn [would_block].
      destruct (Z.eqb_spec (last_error w) (EWOULDBLOCK hd)) as [Heq|Hne].
      * split; [reflexivity|]. split; [reflexivity | intros Hn; contradiction].
      * split; [reflexivity|]. split; [intros Heq; contradiction|]. intros _.
        unfold error_code in Hread. rewrite i32_small by lia. lia.
Qed.

Lemma poll_COM_port_would_block_witness :
  error_codes_ok (Posix linux_h) (os (open_sys [Fail 11])) /\
  error_codes_ok (Posix linux_h) (os (open_sys [Fail 5])) /\
  (poll_COM_port (Posix linux_h) (replicate 4 0) 4 (open_sys [Fail 11])).1.1 = 0 /\
  (poll_COM_port (Posix linux_h) (replicate 4 0) 4 (open_sys [Fail 5])).1.1 = -5.
Proof.
  assert (H11 : error_codes_ok (Posix linux_h) (os (open_sys [Fail 11])))
    by (split; [|repeat constructor]; unfold error_code; simpl; lia).
  assert (H5 : error_codes_ok (Posix linux_h) (os (open_sys [Fail 5])))
    by (split; [|repeat constructor]; unfold error_code; simpl; lia).
  split; [exact H11|]. split; [exact H5|]. split.
  - pose proof (poll_COM_port_would_block (Posix linux_h) (replicate 4 0) 4
                  (open_sys [Fail 11]) H11) as T.
    vm_compute in T. destruct T as [_ [T _]]. exact (T eq_refl).
  - pose proof (poll_COM_port_would_block (Posix linux_h) (replicate 4 0) 4
                  (open_sys [Fail 5]) H5) as T.
    vm_compute in T. destruct T as [_ [_ T]]. apply T. discriminate.
Defined.

(** ** Handles across the calls of [init_COM_port] *)

Lemma on_handle_handles (pf : platform) (c : os_call) (h : Z) (w : World) :
  handles (on_handle pf c h w).2 = handles w /\
  calls (on_handle pf c h w).2 = calls w ++ [c].
Proof.
  unfold on_handle, answer. destruct (held h (log c w)); [|split; reflexivity].
  cbn [script log]. destruct (script w) as [|[bs|e] rs]; split; reflexivity.
Qed.

Lemma GetCommState_handles (h : Z) (w : World) :
  handles (GetCommState h w).2 = handles w.
Proof.
  unfold GetCommState. pose proof (on_handle_handles Win32 (OsGetState h) h w) as [H _].
  destruct (on_handle Win32 (OsGetState h) h w) as [[bs|e] w']; exact H.
Qed.

Lemma SetCommState_handles (h : Z) (d : DCB) (w : World) :
  handles (SetCommState h d w).2 = handles w.
Proof.
  unfold SetCommState. pose proof (on_handle_handles Win32 (OsSetState h) h w) as [H _].
  destruct (on_handle Win32 (OsSetState h) h w) as [[bs|e] w']; exact H.
Qed.

Lemma GetCommTimeouts_handles (h : Z) (w : World) :
  handles (GetCommTimeouts h w).2 = handles w.
Proof.
  unfold GetCommTimeouts. pose proof (on_handle_handles Win32 (OsGetTimeouts h) h w) as [H _].
  destruct (on_handle Win32 (OsGetTimeouts h) h w) as [[bs|e] w']; exact H.
Qed.

Lemma SetCommTimeouts_handles (h : Z) (t : COMMTIMEOUTS) (w : World) :
  handles (SetCommTimeouts h t w).2 = handles w.
Proof.
  unfold SetCommTimeouts. pose proof (on_handle_handles Win32 (OsSetTimeouts h) h w) as [H _].
  destruct (on_handle Win32 (OsSetTimeouts h) h w) as [[bs|e] w']; exact H.
Qed.

Lemma tcgetattr_handles (hd : posix_h) (h : Z) (w : World) :
  handles (tcgetattr hd h w).2 = handles w.
Proof.
  unfold tcgetattr. pose proof (on_handle_handles (Posix hd) (OsGetState h) h w) as [H _].
  destruct (on_handle (Posix hd) (OsGetState h) h w) as [[bs|e] w']; exact H.
Qed.

Lemma tcsetattr_handles (hd : posix_h) (h : Z) (t : termios) (w : World) :
  handles (tcsetattr hd h t w).2 = handles w.
Proof.
  unfold tcsetattr. pose proof (on_handle_handles (Posix hd) (OsSetState h) h w) as [H _].
  destruct (on_handle (Posix hd) (OsSetState h) h w) as [[bs|e] w']; exact H.
Qed.

Lemma filter_other (h : Z) (hs : list Z) :
  h ∉ hs -> filter (λ x, x ≠ h) hs = hs.
Proof.
  induction hs as [|x hs IH]; intros Hout; [reflexivity|].
  apply not_elem_of_cons in Hout as [Hx Hout].
  rewrite filter_cons_True by congruence. rewrite IH by assumption. reflexivity.
Qed.

Lemma os_close_handles (pf : platform) (h : Z) (w : World) :
  handles (os_close pf h w) = filter (λ x, x ≠ h) (handles w) /\
  last (calls (os_close pf h w)) = Some (OsClose h).
Proof.
  unfold os_close, held. cbn [handles log].
  destruct (bool_decide_reflect (h ∈ handles w)) as [Hin|Hout]; cbn [handles calls set_handles set_last_error log].
  - split; [reflexivity | apply last_snoc].
  - split; [|apply last_snoc]. symmetry. apply filter_other. assumption.
Qed.

Lemma os_open_cases (name : list Z) (w : World) :
  (exists w', os_open name w = (-1, w') /\ handles w' = handles w) \/
  (exists w', os_open name w = (fresh w, w') /\ handles w' = fresh w :: handles w).
Proof.
  unfold os_open, answer. cbn [script log].
  destruct (script w) as [|[bs|e] rs]; cbn [fresh handles set_fresh set_handles set_script set_last_error log];
    eauto.
Qed.

Lemma filter_fresh (h : Z) (hs : list Z) :
  Forall (λ x, 0 <= x < h) hs -> filter (λ x, x ≠ h) (h :: hs) = hs.
Proof.
  intros H. rewrite filter_cons_False by (intros Hn; apply Hn; reflexivity).
  apply filter_other. intros Hin.
  rewrite Forall_forall in H. specialize (H _ Hin). lia.
Qed.

(** The end of a failing path: the message, then the handle is closed. *)
Lemma release_after_open (pf : platform) (h : Z) (msg : string) (w w0 : World) :
  handles_ok w0 -> h = fresh w0 -> handles w = h :: handles w0 ->
  let w' := os_close pf h (eprintf msg w) in
  handles w' = handles w0 /\ (h ∉ handles w') /\ last (calls w') = Some (OsClose h).
Proof.
  intros [Hf Hs] -> Hw. cbn zeta.
  destruct (os_close_handles pf (fresh w0) (eprintf msg w)) as [Hh Hl].
  cbn [eprintf handles log] in Hh. rewrite Hw, (filter_fresh _ _ Hs) in Hh.
  rewrite Hh. split; [reflexivity|]. split; [|exact Hl].
  intros Hin. rewrite Forall_forall in Hs. specialize (Hs _ Hin). lia.
Qed.

Lemma init_COM_port_win32_handles
  (portName : list Z) (baudRate parityBit stopBits mode : Z) (st : Sys) :
  handles_ok (os st) ->
  let h := (os_open portName (os st)).1 in
  let '(r, st') := init_COM_port_win32 portName baudRate parityBit stopBits mode st in
  (r ≠ 0 ->
   handles (os st') = handles (os st) /\ (h ∉ handles (os st')) /\
   (h ≠ -1 -> last (calls (os st')) = Some (OsClose h))) /\
  (r = 0 -> hComm st' = h /\ handles (os st') = h :: handles (os st)).
Proof.
  intros Hok. pose proof Hok as [Hf Hs]. unfold init_COM_port_win32.
  destruct (os_open_cases portName (os st)) as [(w1 & Ho & Hh)|(w1 & Ho & Hh)];
    rewrite Ho; sys_simpl.
  - cbn [Z.eqb INVALID_HANDLE_VALUE Pos.eqb]. sys_simpl. cbn [eprintf handles log].
    split; [|intros H; discriminate]. intros _. split; [exact Hh|].
    split; [|intros H; contradiction]. rewrite Hh. intros Hin.
    rewrite Forall_forall in Hs. specialize (Hs _ Hin). lia.
  - unfold INVALID_HANDLE_VALUE.
    destruct (Z.eqb_spec (fresh (os st)) (-1)) as [Heq|_]; [lia|].
    pose proof (GetCommState_handles (fresh (os st)) w1) as H1.
    destruct (GetCommState (fresh (os st)) w1) as [[ok1 d1] w2]. sys_simpl.
    rewrite Hh in H1.
    destruct ok1; sys_simpl.
    2:{ split; [|intros H; discriminate]. intros _.
        destruct (release_after_open Win32 (fresh (os st))
                    "Error retrieving DCB settings for COM port" w2 (os st)) as (A & B & C);
          auto. }
    match goal with
    | |- context [SetCommState ?h ?d ?w] =>
        pose proof (SetCommState_handles h d w) as H2;
        destruct (SetCommState h d w) as [ok2 w3]
    end.
    sys_simpl. rewrite H1 in H2.
    destruct ok2; sys_simpl.
    2:{ split; [|intros H; discriminate]. intros _.
        destruct (release_after_open Win32 (fresh (os st))
                    "Error setting DCB settings for COM port" w3 (os st)) as (A & B & C);
          auto. }
    pose proof (GetCommTimeouts_handles (fresh (os st)) w3) as H3.
    destruct (GetCommTimeouts (fresh (os st)) w3) as [[ok3 t3] w4]. sys_simpl.
    rewrite H2 in H3.
    destruct ok3; sys_simpl.
    2:{ split; [|intros H; discriminate]. intros _.
        destruct (release_after_open Win32 (fresh (os st))
                    "Error retrieving time-out settings for COM port" w4 (os st)) as (A & B & C);
          auto. }
    match goal with
    | |- context [SetCommTimeouts ?h ?t ?w] =>
        pose proof (SetCommTimeouts_handles h t w) as H4;
        destruct (SetCommTimeouts h t w) as [ok4 w5]
    end.
    sys_simpl. rewrite H3 in H4.
    destruct ok4; sys_simpl.
    2:{ split; [|intros H; discriminate]. intros _.
        destruct (release_after_open Win32 (fresh (os st))
                    "Error setting time-out settings for COM port" w5 (os st)) as (A & B & C);
          auto. }
    split; [intros H; contradiction|]. intros _. split; [reflexivity | exact H4].
Qed.

Lemma init_COM_port_posix_handles (hd : posix_h)
  (portName : list Z) (baudRate parityBit stopBits mode : Z) (st : Sys) :
  handles_ok (os st) ->
  let h := (os_open portName (os st)).1 in
  let '(r, st') := init_COM_port_posix hd portName baudRate parityBit stopBits mode st in
  (r ≠ 0 ->
   handles (os st') = handles (os st) /\ (h ∉ handles (os st')) /\
   (h ≠ -1 -> last (calls (os st')) = Some (OsClose h))) /\
  (r = 0 -> hComm st' = h /\ handles (os st') = h :: handles (os st)).
Proof.
  intros Hok. pose proof Hok as [Hf Hs]. unfold init_COM_port_posix.
  destruct (os_open_cases portName (os st)) as [(w1 & Ho & Hh)|(w1 & Ho & Hh)];
    rewrite Ho; sys_simpl.
  - cbn [Z.ltb Z.compare]. sys_simpl. cbn [eprintf handles log].
    split; [|intros H; discriminate]. intros _. split; [exact Hh|].
    split; [|intros H; contradiction]. rewrite Hh. intros Hin.
    rewrite Forall_forall in Hs. specialize (Hs _ Hin). lia.
  - destruct (Z.ltb_spec (fresh (os st)) 0) as [Hlt|_]; [lia|].
    pose proof (tcgetattr_handles hd (fresh (os st)) w1) as H1.
    destruct (tcgetattr hd (fresh (os st)) w1) as [[r1 t1] w2]. sys_simpl.
    rewrite Hh in H1.
    destruct (r1 =? 0); sys_simpl.
    2:{ split; [|intros H; discriminate]. intros _.
        destruct (release_after_open (Posix hd) (fresh (os st))
                    "Error retrieving termios settings for COM port" w2 (os st)) as (A & B & C);
          auto. }
    match goal with
    | |- context [tcsetattr hd ?h ?t ?w] =>
        pose proof (tcsetattr_handles hd h t w) as H2;
        destruct (tcsetattr hd h t w) as [r2 w3]
    end.
    sys_simpl. rewrite H1 in H2.
    destruct (r2 =? 0); sys_simpl.
    2:{ split; [|intros H; discriminate]. intros _.
        destruct (release_after_open (Posix hd) (fresh (os st))
                    "Error setting termios settings for COM port" w3 (os st)) as (A & B & C);
          auto. }
    split; [intros H; contradiction|]. intros _. split; [reflexivity | exact H2].
Qed.

Lemma init_COM_port_handles (pf : platform)
  (portName : list Z) (baudRate parityBit stopBits mode : Z) (st : Sys) :
  handles_ok (os st) ->
  let h := (os_open portName (os st)).1 in
  let '(r, st') := init_COM_port pf portName baudRate parityBit stopBits mode st in
  (r ≠ 0 ->
   handles (os st') = handles (os st) /\ (h ∉ handles (os st')) /\
   (h ≠ -1 -> last (calls (os st')) = Some (OsClose h))) /\
  (r = 0 -> hComm st' = h /\ handles (os st') = h :: handles (os st)).
Proof.
  intros Hok. destruct pf as [|hd]; cbn [init_COM_port].
  - apply init_COM_port_win32_handles. assumption.
  - apply init_COM_port_posix_handles. assumption.
Qed.

(** C6.  When [init_COM_port] fails, no handle it acquired stays open: the
    open handles are those from before the call, and if the open itself
    had succeeded, the last call made to the system before the function
    returns its error is the one that closes the new handle. *)
Theorem init_COM_port_releases_handle (pf : platform)
  (portName : list Z) (baudRate parityBit stopBits mode : Z) (st : Sys) :
  handles_ok (os st) ->
  let h := (os_open portName (os st)).1 in
  let '(r, st') := init_COM_port pf portName baudRate parityBit stopBits mode st in
  r ≠ 0 ->
  handles (os st') = handles (os st) /\ (h ∉ handles (os st')) /\
  (h ≠ -1 -> last (calls (os st')) = Some (OsClose h)).
Proof.
  intros Hok.
  pose proof (init_COM_port_handles pf portName baudRate parityBit stopBits mode st Hok) as H.
  cbn zeta in *.
  destruct (init_COM_port pf portName baudRate parityBit stopBits mode st) as [r st'].
  exact (proj1 H).
Qed.

Lemma init_COM_port_releases_handle_witness :
  handles_ok (os (closed_sys [Ok []; Ok []; Fail 5])) /\
  (init_COM_port (Posix linux_h) (codes "tty") 9600 0 1 0
     (closed_sys [Ok []; Ok []; Fail 5])).1 = -1 /\
  handles (os (init_COM_port (Posix linux_h) (codes "tty") 9600 0 1 0
                 (closed_sys [Ok []; Ok []; Fail 5])).2) = [] /\
  last (calls (os (init_COM_port (Posix linux_h) (codes "tty") 9600 0 1 0
                     (closed_sys [Ok []; Ok []; Fail 5])).2)) = Some (OsClose 3).
Proof.
  assert (H : handles_ok (os (closed_sys [Ok []; Ok []; Fail 5])))
    by (split; [simpl; lia | constructor]).
  split; [exact H|]. split; [reflexivity|].
  pose proof (init_COM_port_releases_handle (Posix linux_h) (codes "tty") 9600 0 1 0
                (closed_sys [Ok []; Ok []; Fail 5]) H) as T.
  vm_compute in T. destruct (T ltac:(discriminate)) as (A & _ & C).
  split; [exact A|]. apply C. discriminate.
Defined.

(** ** Reads as [Poll] sees them *)

Lemma os_read_ok (pf : platform) (h len : Z) (w : World) (bs : list Z) (rest : list reply) :
  held h w = true -> script w = Ok bs :: rest ->
  os_read pf h len w = (Some (take (Z.to_nat len) bs), after_read h len rest w).
Proof.
  intros Hh Hs. unfold os_read, on_handle, answer.
  change (held h (log (OsRead h len) w)) with (held h w). rewrite Hh.
  cbn [script log]. rewrite Hs. reflexivity.
Qed.

Lemma os_read_error (pf : platform) (h len e : Z) (w : World) (rest : list reply) :
  held h w = true -> script w = Fail e :: rest ->
  os_read pf h len w = (None, set_last_error e (after_read h len rest w)).
Proof.
  intros Hh Hs. unfold os_read, on_handle, answer.
  change (held h (log (OsRead h len) w)) with (held h w). rewrite Hh.
  cbn [script log]. rewrite Hs. reflexivity.
Qed.

Lemma fill_take (n : nat) (bs : list Z) :
  (length bs <= n)%nat -> take (length bs) (fill (replicate n 0) bs) = bs.
Proof. intros H. unfold fill. rewrite take_app_length. reflexivity. Qed.

(** A read that finds the bytes [bs], no more than asked for. *)
Lemma poll_COM_port_data (pf : platform) (n : Z) (st : Sys) (bs : list Z) (rest : list reply) :
  0 <= n <= 32767 ->
  held (hComm st) (os st) = true -> script (os st) = Ok bs :: rest ->
  Z.of_nat (length bs) <= n ->
  poll_COM_port pf (replicate (Z.to_nat n) 0) n st
  = (Z.of_nat (length bs), fill (replicate (Z.to_nat n) 0) bs,
     set_os (after_read (hComm st) n rest (os st)) st).
Proof.
  intros Hn Hh Hs Hbs. unfold poll_COM_port. rewrite u16_small by lia.
  destruct pf as [|hd]; rewrite (os_read_ok _ _ _ _ _ _ Hh Hs);
    rewrite take_ge by lia; rewrite i32_small by lia; [reflexivity|].
  destruct (Z.leb_spec 0 (Z.of_nat (length bs))); [reflexivity | lia].
Qed.

(** A read that fails with the code [e], not the "would block" code. *)
Lemma poll_COM_port_error (pf : platform) (buffer : list Z) (n e : Z) (st : Sys)
  (rest : list reply) :
  0 <= n <= 32767 ->
  held (hComm st) (os st) = true -> script (os st) = Fail e :: rest ->
  error_code e ->
  (forall hd, pf = Posix hd -> e ≠ EWOULDBLOCK hd) ->
  poll_COM_port pf buffer n st
  = (- e, buffer, set_os (set_last_error e (after_read (hComm st) n rest (os st))) st).
Proof.
  intros Hn Hh Hs He Hwb. unfold poll_COM_port. rewrite u16_small by lia.
  destruct pf as [|hd]; rewrite (os_read_error _ _ _ _ _ _ Hh Hs);
    cbn [last_error set_last_error].
  - rewrite i32_minus_dword by assumption. reflexivity.
  - simpl "<=?". destruct (Z.eqb_spec e (EWOULDBLOCK hd)) as [Heq|_];
      [exfalso; eapply Hwb; eauto|].
    unfold error_code in He. rewrite i32_small by lia. reflexivity.
Qed.

(** A read that would block. *)
Lemma poll_COM_port_blocked (hd : posix_h) (buffer : list Z) (n : Z) (st : Sys)
  (rest : list reply) :
  0 <= n <= 32767 ->
  held (hComm st) (os st) = true -> script (os st) = Fail (EWOULDBLOCK hd) :: rest ->
  poll_COM_port (Posix hd) buffer n st
  = (0, buffer,
     set_os (set_last_error (EWOULDBLOCK hd) (after_read (hComm st) n rest (os st))) st).
Proof.
  intros Hn Hh Hs. unfold poll_COM_port. rewrite u16_small by lia.
  rewrite (os_read_error _ _ _ _ _ _ Hh Hs). cbn [last_error set_last_error].
  simpl "<=?". rewrite Z.eqb_refl. reflexivity.
Qed.

(** ** A tick of the timer: [Poll]

    The handlers of [DataRecived] are taken to return normally and to
    leave the [Port] and the library as they are. *)

Section PollTick.

Import VCPWrapper.

Variable pf : platform.
Variable N : Z.
Variable this : Port.
Hypothesis capacity : 0 < N <= 32767.

Lemma Poll_data_step (fuel : nat) (proc : Process) (bs : list Z) (rest : list reply) :
  port_held proc -> script (os (native proc)) = Ok bs :: rest ->
  Z.of_nat (length bs) <= N ->
  Poll pf N (S fuel) this proc =
    let proc1 :=
      set_native (set_os (after_read (hComm (native proc)) N rest (os (native proc)))
                         (native proc)) proc in
    if 0 <? Z.of_nat (length bs) then
      if Z.of_nat (length bs) =? N then Poll pf N fuel this (notify this bs proc1)
      else Some (Return tt, notify this bs proc1)
    else Some (Return tt, proc1).
Proof.
  intros Hh Hs Hbs. cbn [Poll].
  rewrite (poll_COM_port_data pf N (native proc) bs rest) by (assumption || lia).
  destruct (Z.ltb_spec (Z.of_nat (length bs)) 0) as [Hneg|_]; [lia|].
  cbn zeta. destruct (0 <? Z.of_nat (length bs)); [|reflexivity].
  rewrite Nat2Z.id, fill_take by lia. reflexivity.
Qed.

Lemma polled_refl (rest : list reply) (proc : Process) :
  script (os (native proc)) = rest -> polled N this 0 [] rest proc proc.
Proof.
  intros Hs. unfold polled, deliveries. cbn [replicate map].
  rewrite !app_nil_r. destruct (is_null (DataRecived this)); rewrite ?app_nil_r; auto.
Qed.

Lemma deliveries_cons (bs : list Z) (events : list (list Z)) (proc : Process) :
  raised (notify this bs proc) ++ deliveries this events = raised proc ++ deliveries this (bs :: events).
Proof.
  unfold notify, deliveries, Invoke. destruct (is_null (DataRecived this)); cbn [negb raised map].
  - reflexivity.
  - rewrite <- app_assoc. reflexivity.
Qed.

Lemma deliveries_nil : deliveries this [] = [].
Proof. unfold deliveries. destruct (is_null (DataRecived this)); reflexivity. Qed.

Lemma notify_native (bs : list Z) (proc : Process) : native (notify this bs proc) = native proc.
Proof. unfold notify. destruct (negb (is_null (DataRecived this))); reflexivity. Qed.

(** The saturated reads: each raises its event and polls again at once. *)
Lemma Poll_drain (chunks : list (list Z)) :
  forall (fuel : nat) (proc : Process) (tail : list reply),
    Forall (λ c, Z.of_nat (length c) = N) chunks ->
    port_held proc ->
    script (os (native proc)) = map Ok chunks ++ tail ->
    exists proc',
      Poll pf N (length chunks + fuel) this proc = Poll pf N fuel this proc' /\
      polled N this (length chunks) chunks tail proc proc'.
Proof.
  induction chunks as [|c chunks IH]; intros fuel proc tail Hfull Hheld Hs.
  - exists proc. split; [reflexivity | apply polled_refl; exact Hs].
  - apply Forall_cons in Hfull as [Hc Hfull]. cbn [map app] in Hs.
    cbn [length Nat.add]. rewrite (Poll_data_step _ _ _ _ Hheld Hs) by lia. cbn zeta.
    destruct (Z.ltb_spec 0 (Z.of_nat (length c))) as [_|Hz]; [|lia].
    rewrite Hc, Z.eqb_refl.
    set (proc1 := set_native _ proc).
    destruct (IH fuel (notify this c proc1) tail Hfull) as (proc' & HP & Hh' & Hhs & Hcalls & Hscript & Hraised).
    + unfold port_held. rewrite notify_native. exact Hheld.
    + rewrite notify_native. reflexivity.
    + exists proc'. split; [exact HP|].
      rewrite notify_native in Hh', Hhs, Hcalls.
      assert (Hr1 : raised proc1 = raised proc) by reflexivity.
      subst proc1.
      cbn [native set_native os set_os hComm handles calls after_read set_script log]
        in Hh', Hhs, Hcalls.
      unfold polled. repeat split.
      * exact Hh'.
      * exact Hhs.
      * rewrite Hcalls. cbn [replicate]. rewrite <- app_assoc. reflexivity.
      * exact Hscript.
      * rewrite Hraised, deliveries_cons, Hr1. reflexivity.
Qed.

(** The read that ends the tick: fewer bytes than the buffer holds. *)
Lemma Poll_short (fuel : nat) (proc : Process) (last : list Z) (rest : list reply) :
  port_held proc -> script (os (native proc)) = Ok last :: rest ->
  Z.of_nat (length last) < N ->
  exists proc',
    Poll pf N (S fuel) this proc = Some (Return tt, proc') /\
    polled N this 1 (match last with [] => [] | _ => [last] end) rest proc proc'.
Proof.
  intros Hheld Hs Hlen. rewrite (Poll_data_step _ _ _ _ Hheld Hs) by lia. cbn zeta.
  destruct last as [|b last].
  - cbn [length Z.of_nat Z.ltb Z.compare]. eexists. split; [reflexivity|].
    unfold polled, deliveries.
    cbn [native set_native os set_os hComm handles calls after_read set_script log
         script raised replicate map].
    destruct (is_null (DataRecived this)); rewrite ?app_nil_r; auto 10.
  - destruct (Z.ltb_spec 0 (Z.of_nat (length (b :: last)))) as [_|Hz]; [|simpl in Hz; lia].
    destruct (Z.eqb_spec (Z.of_nat (length (b :: last))) N) as [Heq|_]; [lia|].
    eexists. split; [reflexivity|].
    unfold polled. rewrite notify_native.
    cbn [native set_native os set_os hComm handles calls after_read set_script log
         script replicate].
    repeat split.
    rewrite <- (app_nil_r (raised (notify this _ _))), <- deliveries_nil, deliveries_cons.
    reflexivity.
Qed.

(** The answer that ends the tick, read or "would block". *)
Lemma Poll_ends (fuel : nat) (proc : Process) (r : reply) (last : list Z)
  (rest : list reply) :
  port_held proc -> script (os (native proc)) = r :: rest ->
  ends_tick pf N r last ->
  exists proc',
    Poll pf N (S fuel) this proc = Some (Return tt, proc') /\
    polled N this 1 (short_event last) rest proc proc'.
Proof.
  intros Hheld Hs Hend. destruct Hend as [last Hlen|hd Hpf].
  - apply Poll_short; assumption.
  - cbn [Poll]. rewrite Hpf.
    rewrite (poll_COM_port_blocked hd _ N (native proc) rest) by (assumption || lia).
    cbn [Z.ltb Z.compare]. eexists. split; [reflexivity|].
    unfold polled, deliveries.
    cbn [native set_native os set_os hComm handles calls after_read set_script log
         set_last_error script raised replicate map short_event].
    destruct (is_null (DataRecived this)); rewrite ?app_nil_r; auto 10.
Qed.

Lemma deliveries_app (ev ev' : list (list Z)) :
  deliveries this (ev ++ ev') = deliveries this ev ++ deliveries this ev'.
Proof.
  unfold deliveries. destruct (is_null (DataRecived this)); [reflexivity|].
  apply map_app.
Qed.

Lemma polled_trans (n m : nat) (ev ev' : list (list Z)) (mid rest : list reply)
  (proc proc1 proc2 : Process) :
  polled N this n ev mid proc proc1 -> polled N this m ev' rest proc1 proc2 ->
  polled N this (n + m) (ev ++ ev') rest proc proc2.
Proof.
  intros (A1 & B1 & C1 & D1 & E1) (A2 & B2 & C2 & D2 & E2). unfold polled.
  rewrite A2, B2, C2, E2, A1, B1, C1, E1, D2.
  rewrite replicate_add, deliveries_app, <- !app_assoc. auto.
Qed.

Lemma polled_held (n : nat) (ev : list (list Z)) (rest : list reply) (proc proc' : Process) :
  polled N this n ev rest proc proc' -> port_held proc -> port_held proc'.
Proof.
  intros (A & B & _) H. unfold port_held, held in *. rewrite A, B. exact H.
Qed.

(** A whole tick: saturated reads, then one that is not. *)
Lemma Poll_tick (chunks : list (list Z)) (r : reply) (last : list Z) (rest : list reply)
  (fuel : nat) (proc : Process) :
  Forall (λ c, Z.of_nat (length c) = N) chunks ->
  ends_tick pf N r last ->
  port_held proc ->
  script (os (native proc)) = map Ok chunks ++ r :: rest ->
  (length chunks < fuel)%nat ->
  exists proc',
    Poll pf N fuel this proc = Some (Return tt, proc') /\
    polled N this (length chunks + 1) (chunks ++ short_event last) rest proc proc'.
Proof.
  intros Hfull Hlast Hheld Hs Hfuel.
  replace fuel with (length chunks + S (fuel - S (length chunks)))%nat by lia.
  destruct (Poll_drain chunks (S (fuel - S (length chunks))) proc (r :: rest)
              Hfull Hheld Hs) as (proc1 & HP & Hpolled).
  rewrite HP.
  destruct (Poll_ends (fuel - S (length chunks)) proc1 r last rest) as (proc2 & HP2 & Hpolled2).
  - eapply polled_held; eassumption.
  - apply Hpolled.
  - exact Hlast.
  - exists proc2. split; [exact HP2|]. eapply polled_trans; eassumption.
Qed.

(** A tick that a failing read ends. *)
Lemma Poll_failure (chunks : list (list Z)) (e : Z) (rest : list reply)
  (fuel : nat) (proc : Process) :
  Forall (λ c, Z.of_nat (length c) = N) chunks ->
  error_code e ->
  (forall hd, pf = Posix hd -> e ≠ EWOULDBLOCK hd) ->
  port_held proc ->
  script (os (native proc)) = map Ok chunks ++ Fail e :: rest ->
  (length chunks < fuel)%nat ->
  exists proc',
    Poll pf N fuel this proc = Some (Throw (Win32Exception e), proc') /\
    raised proc' = raised proc ++ deliveries this chunks /\
    script (os (native proc')) = rest.
Proof.
  intros Hfull He Hwb Hheld Hs Hfuel.
  replace fuel with (length chunks + S (fuel - S (length chunks)))%nat by lia.
  destruct (Poll_drain chunks (S (fuel - S (length chunks))) proc (Fail e :: rest)
              Hfull Hheld Hs) as (proc1 & HP & Hpolled).
  rewrite HP. pose proof (polled_held _ _ _ _ _ Hpolled Hheld) as Hheld1.
  destruct Hpolled as (A & B & C & D & E).
  cbn [Poll].
  rewrite (poll_COM_port_error pf _ N e (native proc1) rest) by (assumption || lia).
  destruct (Z.ltb_spec (- e) 0) as [_|Hpos]; [|unfold error_code in He; lia].
  eexists. split; [reflexivity|]. split; [exact E | reflexivity].
Qed.

(** C2.  A tick of an open [Port] with a handler and a buffer of [N]
    bytes, on reads that return [N] bytes ([chunks], possibly none) and
    then one that returns fewer ([last], possibly no byte, also when the
    read would block): [Poll] raises
    one event for each read that returned bytes, in order, each carrying
    exactly the bytes of its read; it polls again at once after each read
    of [N] bytes, makes no read after the short one, and returns.  So a
    read of no byte raises nothing, a first read of 1 to [N]-1 bytes
    raises exactly one event and ends the tick, and a read of [N] bytes
    is followed by another in the same tick. *)
Theorem Poll_notifies (chunks : list (list Z)) (r : reply) (last : list Z)
  (rest : list reply) (fuel : nat) (proc : Process) :
  DataRecived this ≠ [] ->
  Forall (λ c, Z.of_nat (length c) = N) chunks ->
  ends_tick pf N r last ->
  port_held proc ->
  script (os (native proc)) = map Ok chunks ++ r :: rest ->
  (length chunks < fuel)%nat ->
  exists proc',
    Poll pf N fuel this proc = Some (Return tt, proc') /\
    raised proc'
    = raised proc ++ map (λ bs, (DataRecived this, mkArgs bs)) (chunks ++ short_event last) /\
    calls (os (native proc'))
    = calls (os (native proc)) ++ replicate (length chunks + 1) (OsRead (hComm (native proc)) N) /\
    script (os (native proc')) = rest.
Proof.
  intros Hh Hfull Hlast Hheld Hs Hfuel.
  destruct (Poll_tick chunks r last rest fuel proc Hfull Hlast Hheld Hs Hfuel)
    as (proc' & HP & _ & _ & Hcalls & Hscript & Hraised).
  exists proc'. split; [exact HP|]. split; [|split; assumption].
  rewrite Hraised. unfold deliveries.
  destruct (DataRecived this); [contradiction | reflexivity].
Qed.

(** C10.  The same tick with no handler: nothing is raised and nothing is
    kept, whatever was read; the reads are made all the same, one more
    after each read of [N] bytes, and take the bytes from the system. *)
Theorem Poll_without_handler (chunks : list (list Z)) (r : reply) (last : list Z)
  (rest : list reply) (fuel : nat) (proc : Process) :
  DataRecived this = [] ->
  Forall (λ c, Z.of_nat (length c) = N) chunks ->
  ends_tick pf N r last ->
  port_held proc ->
  script (os (native proc)) = map Ok chunks ++ r :: rest ->
  (length chunks < fuel)%nat ->
  exists proc',
    Poll pf N fuel this proc = Some (Return tt, proc') /\
    raised proc' = raised proc /\
    calls (os (native proc'))
    = calls (os (native proc)) ++ replicate (length chunks + 1) (OsRead (hComm (native proc)) N) /\
    script (os (native proc')) = rest.
Proof.
  intros Hh Hfull Hlast Hheld Hs Hfuel.
  destruct (Poll_tick chunks r last rest fuel proc Hfull Hlast Hheld Hs Hfuel)
    as (proc' & HP & _ & _ & Hcalls & Hscript & Hraised).
  exists proc'. split; [exact HP|]. split; [|split; assumption].
  rewrite Hraised. unfold deliveries. rewrite Hh. cbn [is_null]. apply app_nil_r.
Qed.

(** C9 (amended).  When a read of a tick fails, with a code that is not
    "would block", [Poll] raises no event for the failure: it throws a
    [Win32Exception] with the code, on the thread of the timer, after the
    events of the reads of [N] bytes that came before in the tick. *)
Theorem Poll_read_failure_throws (chunks : list (list Z)) (e : Z) (rest : list reply)
  (fuel : nat) (proc : Process) :
  Forall (λ c, Z.of_nat (length c) = N) chunks ->
  error_code e ->
  (forall hd, pf = Posix hd -> e ≠ EWOULDBLOCK hd) ->
  port_held proc ->
  script (os (native proc)) = map Ok chunks ++ Fail e :: rest ->
  (length chunks < fuel)%nat ->
  exists proc',
    Poll pf N fuel this proc = Some (Throw (Win32Exception e), proc') /\
    raised proc' = raised proc ++ deliveries this chunks.
Proof.
  intros Hfull He Hwb Hheld Hs Hfuel.
  destruct (Poll_failure chunks e rest fuel proc Hfull He Hwb Hheld Hs Hfuel)
    as (proc' & HP & Hraised & _).
  exists proc'. split; assumption.
Qed.

End PollTick.

Section PollExamples.

Import VCPWrapper.

Lemma Poll_notifies_witness :
  0 < 4 <= 32767 /\ DataRecived listening ≠ [] /\
  exists proc',
    Poll Win32 4 2 listening (process [Ok [1; 2; 3; 4]; Ok [5; 6]]) = Some (Return tt, proc') /\
    raised proc' = [([1%nat], mkArgs [1; 2; 3; 4]); ([1%nat], mkArgs [5; 6])] /\
    calls (os (native proc')) = [OsRead 3 4; OsRead 3 4] /\
    script (os (native proc')) = [].
Proof.
  split; [lia|]. split; [discriminate|].
  apply (Poll_notifies Win32 4 listening ltac:(lia) [[1; 2; 3; 4]] (Ok [5; 6]) [5; 6] [] 2%nat
           (process [Ok [1; 2; 3; 4]; Ok [5; 6]])).
  - discriminate.
  - repeat constructor.
  - constructor. simpl; lia.
  - reflexivity.
  - reflexivity.
  - simpl; lia.
Defined.

Lemma Poll_without_handler_witness :
  DataRecived unheard = [] /\
  exists proc',
    Poll Win32 4 2 unheard (process [Ok [1; 2; 3; 4]; Ok [5; 6]]) = Some (Return tt, proc') /\
    raised proc' = [] /\
    calls (os (native proc')) = [OsRead 3 4; OsRead 3 4] /\
    script (os (native proc')) = [].
Proof.
  split; [reflexivity|].
  apply (Poll_without_handler Win32 4 unheard ltac:(lia) [[1; 2; 3; 4]] (Ok [5; 6]) [5; 6] []
           2%nat (process [Ok [1; 2; 3; 4]; Ok [5; 6]])).
  - reflexivity.
  - repeat constructor.
  - constructor. simpl; lia.
  - reflexivity.
  - reflexivity.
  - simpl; lia.
Defined.

Lemma Poll_read_failure_throws_witness :
  error_code 5 /\
  exists proc',
    Poll Win32 4 2 listening (process [Ok [1; 2; 3; 4]; Fail 5])
    = Some (Throw (Win32Exception 5), proc') /\
    raised proc' = [([1%nat], mkArgs [1; 2; 3; 4])].
Proof.
  assert (H : error_code 5) by (unfold error_code; lia).
  split; [exact H|].
  apply (Poll_read_failure_throws Win32 4 listening ltac:(lia) [[1; 2; 3; 4]] 5 [] 2%nat
           (process [Ok [1; 2; 3; 4]; Fail 5])).
  - repeat constructor.
  - exact H.
  - intros hd Hpf. discriminate.
  - reflexivity.
  - reflexivity.
  - simpl; lia.
Defined.

(** C9, as stated, fails: with a handler subscribed and the buffer of the
    source (500 bytes), a read that fails with code 5 ends [Poll] with an
    exception and the handler receives nothing. *)
Lemma Poll_failure_not_delivered :
  DataRecived listening = [1%nat] /\
  match Poll Win32 bufferLength 1 listening (process [Fail 5]) with
  | Some (Throw (Win32Exception e), proc') => e = 5 /\ raised proc' = []
  | _ => False
  end.
Proof. split; [reflexivity|]. vm_compute. split; reflexivity. Qed.

End PollExamples.

(** ** The constructor, [Open], [Close] and [SendBytes] *)

Section PortLifecycle.

Import VCPWrapper.

Lemma BinarySearch_loop_index (fuel : nat) :
  forall (array : list Z) (value lo hi : Z),
    0 <= lo ->
    let r := BinarySearch_loop fuel array value lo hi in
    r < 0 \/ (lo <= r <= hi /\ at_index array r = value).
Proof.
  induction fuel as [|fuel IH]; intros array value lo hi Hlo; cbn [BinarySearch_loop].
  - left. unfold Z.lnot. lia.
  - destruct (Z.leb_spec lo hi) as [Hle|Hgt]; [|left; unfold Z.lnot; lia].
    assert (Hmid : lo <= lo + Z.shiftr (hi - lo) 1 <= hi).
    { rewrite Z.shiftr_div_pow2 by lia. change (2 ^ 1) with 2.
      pose proof (Z.div_pos (hi - lo) 2). 
      pose proof (Z.div_le_upper_bound (hi - lo) 2 (hi - lo)). lia. }
    destruct (at_index array (lo + Z.shiftr (hi - lo) 1) ?= value) eqn:Hcmp.
    + right. apply Z.compare_eq in Hcmp. split; [exact Hmid | exact Hcmp].
    + destruct (IH array value (lo + Z.shiftr (hi - lo) 1 + 1) hi) as [Hn|[Hr Hv]];
        [lia | left; exact Hn | right; split; [lia | exact Hv]].
    + destruct (IH array value lo (lo + Z.shiftr (hi - lo) 1 - 1)) as [Hn|[Hr Hv]];
        [lia | left; exact Hn | right; split; [lia | exact Hv]].
Qed.

Lemma BinarySearch_positive (array : list Z) (value : Z) :
  0 < BinarySearch array value -> value ∈ array.
Proof.
  unfold BinarySearch. intros Hpos.
  destruct (BinarySearch_loop_index (length array) array value 0
              (Z.of_nat (length array) - 1)) as [Hn|[Hr Hv]]; [lia | lia |].
  set (r := BinarySearch_loop _ _ _ _ _) in *. unfold at_index in Hv.
  destruct (array !! Z.to_nat r) as [x|] eqn:Hx.
  - cbn in Hv. subst x. eapply list_elem_of_lookup_2. exact Hx.
  - apply lookup_ge_None in Hx. lia.
Qed.

(** A rate outside the table is refused. *)
Lemma new_Port_outside (portName : option string) (baudRate : Z)
  (parityBit : ParityBit) (stopBits : StopBits) :
  baudRate ∉ BaudRates ->
  new_Port portName baudRate parityBit stopBits
  = Throw (ArgumentException "Unsupported baudRate.").
Proof.
  intros Hout. unfold new_Port.
  destruct (Z.ltb_spec 0 (BinarySearch BaudRates baudRate)) as [Hpos|_]; [|reflexivity].
  exfalso. apply Hout. apply BinarySearch_positive. exact Hpos.
Qed.

(** A rate of the table after its first entry is accepted. *)
Lemma new_Port_inside (portName : option string) (baudRate : Z)
  (parityBit : ParityBit) (stopBits : StopBits) :
  baudRate ∈ BaudRates -> baudRate ≠ 110 ->
  new_Port portName baudRate parityBit stopBits
  = Return (mkPort portName baudRate parityBit stopBits false [] false false).
Proof.
  intros Hin Hne. unfold BaudRates in Hin.
  repeat (apply elem_of_cons in Hin as [->|Hin]; [try contradiction; reflexivity|]).
  apply elem_of_nil in Hin. contradiction.
Qed.

(** C3 (the code departs from it).  110 is a rate of the table, the first:
    [Array.BinarySearch] finds it at index 0, the test [> 0] takes that for
    "not found", and the constructor throws; no [Port] for this rate can
    be opened. *)
Theorem new_Port_rejects_110
  (portName : option string) (parityBit : ParityBit) (stopBits : StopBits) :
  110 ∈ BaudRates /\
  BinarySearch BaudRates 110 = 0 /\
  new_Port portName 110 parityBit stopBits
  = Throw (ArgumentException "Unsupported baudRate.").
Proof. split; [left|]. split; reflexivity. Qed.

(** C7 (amended).  [Port.Close] called twice: the first call returns, and
    the second returns the same [Port] and leaves the process as it was,
    so it makes no call to the system; neither call throws.  The guard is
    the flag [PortOpen] of the wrapper. *)
Theorem Close_twice_is_idle (pf : platform) (this : Port) (proc : Process) :
  exists this1 proc1,
    Close pf this proc = (Return this1, proc1) /\
    PortOpen this1 = false /\
    Close pf this1 proc1 = (Return this1, proc1).
Proof.
  unfold Close. destruct (PortOpen this) eqn:Hopen; cbn [negb].
  - eexists _, _. split; [reflexivity|]. split; reflexivity.
  - exists this, proc. split; [reflexivity|]. split; [exact Hopen|].
    rewrite Hopen. reflexivity.
Qed.

(** C8 (amended).  [Port.SendBytes] on an array of no byte, or of more
    than 255: the call throws, an [ArgumentException] on an open [Port] and
    an [InvalidOperationException] on a closed one, and the process is as
    it was, so no write reached the system.  The check is the wrapper's. *)
Theorem SendBytes_rejects_bad_length
  (pf : platform) (this : Port) (data : list Z) (proc : Process) :
  length data = 0%nat \/ (255 < length data)%nat ->
  exists e,
    SendBytes pf this (Some data) proc = (Throw e, proc) /\
    match e with
    | ArgumentException _ => PortOpen this = true
    | InvalidOperationException _ => PortOpen this = false
    | _ => False
    end.
Proof.
  intros Hlen. unfold SendBytes. destruct (PortOpen this); cbn [negb].
  - destruct Hlen as [Hz|Hbig].
    + rewrite Hz. eexists. split; reflexivity.
    + destruct (Z.eqb_spec (Z.of_nat (length data)) 0) as [Hz|_]; [lia|].
      unfold byte_MaxValue. destruct (Z.ltb_spec 255 (Z.of_nat (length data))) as [_|Hle]; [|lia].
      eexists. split; reflexivity.
  - eexists. split; reflexivity.
Qed.

Lemma SendBytes_rejects_bad_length_witness :
  (255 < length (replicate 256 120))%nat /\
  exists e,
    SendBytes Win32 listening (Some (replicate 256 120)) (process []) = (Throw e, process []) /\
    match e with
    | ArgumentException _ => PortOpen listening = true
    | InvalidOperationException _ => PortOpen listening = false
    | _ => False
    end.
Proof.
  split; [rewrite length_replicate; lia|].
  apply (SendBytes_rejects_bad_length Win32 listening (replicate 256 120) (process [])).
  right. rewrite length_replicate. lia.
Defined.

Lemma on_handle_idle (pf : platform) (c : os_call) (h : Z) (w : World) :
  h ∈ handles w -> script w = [] -> on_handle pf c h w = (Ok [], log c w).
Proof.
  intros Hh Hs. unfold on_handle, answer, held. cbn [handles script log].
  rewrite bool_decide_eq_true_2 by assumption. rewrite Hs. reflexivity.
Qed.

Ltac idle_call :=
  rewrite on_handle_idle by
    (cbn [handles script log set_fresh set_handles set_dev_dcb set_dev_timeouts
          set_dev_termios]; first [left | assumption]).

(** When every call to the system succeeds, so does [init_COM_port]. *)
Lemma init_COM_port_idle (pf : platform)
  (portName : list Z) (baudRate parityBit stopBits mode : Z) (st : Sys) :
  handles_ok (os st) -> script (os st) = [] ->
  (init_COM_port pf portName baudRate parityBit stopBits mode st).1 = 0.
Proof.
  intros [Hf _] Hs.
  assert (Ho : os_open portName (os st)
               = (fresh (os st),
                  set_fresh (fresh (os st) + 1)
                    (set_handles (fresh (os st) :: handles (os st))
                       (log (OsOpen portName) (os st))))).
  { unfold os_open, answer. cbn [script log]. rewrite Hs. reflexivity. }
  destruct pf as [|hd]; cbn [init_COM_port].
  - unfold init_COM_port_win32. rewrite Ho. sys_simpl.
    unfold INVALID_HANDLE_VALUE.
    destruct (Z.eqb_spec (fresh (os st)) (-1)) as [Heq|_]; [lia|].
    unfold GetCommState. idle_call. sys_simpl.
    unfold SetCommState. idle_call. sys_simpl.
    unfold GetCommTimeouts. idle_call. sys_simpl.
    unfold SetCommTimeouts. idle_call. sys_simpl.
    reflexivity.
  - unfold init_COM_port_posix. rewrite Ho. sys_simpl.
    destruct (Z.ltb_spec (fresh (os st)) 0) as [Hlt|_]; [lia|].
    unfold tcgetattr. idle_call. sys_simpl. cbn [Z.eqb negb]. sys_simpl.
    unfold tcsetattr. idle_call. sys_simpl. 
    reflexivity.
Qed.

(** With a rate of the table after the first, on a system whose calls
    succeed, construction, [Open] and [Close] raise nothing. *)
Lemma Open_Close_succeed (pf : platform) (name : string) (baudRate : Z)
  (parityBit : ParityBit) (stopBits : StopBits) (proc : Process) :
  baudRate ∈ BaudRates -> baudRate ≠ 110 ->
  handles_ok (os (native proc)) -> script (os (native proc)) = [] ->
  exists port port' proc' port'' proc'',
    new_Port (Some name) baudRate parityBit stopBits = Return port /\
    Open pf port proc = (Return tt, port', proc') /\
    PortOpen port' = true /\
    Close pf port' proc' = (Return port'', proc'') /\
    PortOpen port'' = false.
Proof.
  intros Hin Hne Hok Hs.
  exists (mkPort (Some name) baudRate parityBit stopBits false [] false false).
  unfold Open, Close, dataPoller_Start.
  cbn [PortOpen PortName BaudRate Parity StopBits_ timerDisposed set_PortOpen].
  pose proof (init_COM_port_idle pf (ASCII_GetBytes name) baudRate
                (ParityBit_byte parityBit) (StopBits_byte stopBits) 0 (native proc) Hok Hs) as Hr.
  destruct (init_COM_port pf _ _ _ _ _ _) as [r sys]. cbn [fst] in Hr. subst r.
  cbn [Z.eqb negb].
  exists (mkPort (Some name) baudRate parityBit stopBits true [] true false),
    (set_native sys proc).
  cbn [PortOpen negb].
  eexists _, _.
  split; [apply new_Port_inside; assumption|].
  split; [reflexivity|]. split; [reflexivity|]. split; reflexivity.
Qed.

Lemma new_Port_outside_witness :
  (12345 ∉ BaudRates) /\
  new_Port (Some "COM7"%string) 12345 NoParity One
  = Throw (ArgumentException "Unsupported baudRate.").
Proof.
  assert (H : 12345 ∉ BaudRates).
  { unfold BaudRates. intros Hin.
    repeat (apply elem_of_cons in Hin as [Hin|Hin]; [discriminate|]).
    apply elem_of_nil in Hin. exact Hin. }
  split; [exact H|]. apply (new_Port_outside (Some "COM7"%string) 12345 NoParity One H).
Defined.

Lemma Open_Close_succeed_witness :
  (9600 ∈ BaudRates) /\
  exists port port' proc' port'' proc'',
    new_Port (Some "COM7"%string) 9600 NoParity One = Return port /\
    Open Win32 port (mkProcess idle_sys []) = (Return tt, port', proc') /\
    PortOpen port' = true /\
    Close Win32 port' proc' = (Return port'', proc'') /\
    PortOpen port'' = false.
Proof.
  assert (H : 9600 ∈ BaudRates) by (unfold BaudRates; do 6 right; left).
  split; [exact H|].
  apply (Open_Close_succeed Win32 "COM7"%string 9600 NoParity One (mkProcess idle_sys []) H).
  - discriminate.
  - split; [simpl; lia | constructor].
  - reflexivity.
Defined.

(** [init_COM_port] itself refuses no rate: for one outside its table it
    opens the device, leaves the speed of the line as it was and returns 0
    with the handle open. *)
Lemma init_COM_port_unknown_rate :
  baud_loop 12345 BaudRno_win32 BaudR_win32 = None /\
  (init_COM_port Win32 (codes "COM7") 12345 0 1 0 idle_sys).1 = 0 /\
  handles (os (init_COM_port Win32 (codes "COM7") 12345 0 1 0 idle_sys).2) = [3] /\
  VCP.BaudRate (dev_dcb (os (init_COM_port Win32 (codes "COM7") 12345 0 1 0 idle_sys).2))
  = VCP.BaudRate (dev_dcb idle_world) /\
  baud_loop 12345 BaudRno_posix (BaudR_posix linux_h) = None /\
  (init_COM_port (Posix linux_h) (codes "tty") 12345 0 1 0 idle_sys).1 = 0 /\
  handles (os (init_COM_port (Posix linux_h) (codes "tty") 12345 0 1 0 idle_sys).2) = [3] /\
  c_ospeed (dev_termios (os (init_COM_port (Posix linux_h) (codes "tty") 12345 0 1 0 idle_sys).2))
  = c_ospeed (dev_termios idle_world).
Proof. repeat split. Qed.

(** C7, as stated, fails for the library: [close_COM_port] has no guard
    of its own, and called a second time it makes its calls to the system
    again, on the handle -1. *)
Lemma close_COM_port_twice_calls_again :
  calls (os (close_COM_port (Posix linux_h) (open_sys [])))
  = [OsSetState 3; OsClose 3] /\
  calls (os (close_COM_port (Posix linux_h) (close_COM_port (Posix linux_h) (open_sys []))))
  = [OsSetState 3; OsClose 3; OsSetState (-1); OsClose (-1)] /\
  calls (os (close_COM_port Win32 (close_COM_port Win32 (open_sys []))))
  = [OsSetState 3; OsSetTimeouts 3; OsClose 3;
     OsSetState (-1); OsSetTimeouts (-1); OsClose (-1)].
Proof. repeat split. Qed.

(** C8, as stated, fails for the library: [COM_port_send_buffer] has no
    check of the length.  With length 0 it calls the write of the system,
    which writes nothing, and returns 0; a length of 300 reaches it as 44
    (the parameter is a [uint8_t]) and 44 bytes are written. *)
Lemma COM_port_send_buffer_empty_writes :
  (COM_port_send_buffer Win32 [] 0 (open_sys [])).1 = 0 /\
  calls (os (COM_port_send_buffer Win32 [] 0 (open_sys [])).2) = [OsWrite 3 []] /\
  (COM_port_send_buffer (Posix linux_h) [] 0 (open_sys [])).1 = 0 /\
  calls (os (COM_port_send_buffer (Posix linux_h) [] 0 (open_sys [])).2) = [OsWrite 3 []] /\
  (COM_port_send_buffer (Posix linux_h) (replicate 300 65) 300 (open_sys [])).1 = 44 /\
  calls (os (COM_port_send_buffer (Posix linux_h) (replicate 300 65) 300 (open_sys [])).2)
  = [OsWrite 3 (replicate 44 65)].
Proof. repeat split. Qed.

End PortLifecycle.

(** * The calls that succeed: settings, writes and the life of a [Port] *)

Lemma answer_calm (w : World) :
  calm w -> exists bs, answer w = (Ok bs, set_script (tail (script w)) w).
Proof.
  unfold calm, answer. destruct w as [hs f e cs sc d t tm]. cbn [script tail set_script].
  destruct sc as [|r rs]; intros H.
  - exists []. reflexivity.
  - apply Forall_cons in H as [[bs ->] _]. exists bs. reflexivity.
Qed.

Lemma on_handle_calm (pf : platform) (c : os_call) (h : Z) (w : World) :
  h ∈ handles w -> calm w -> exists bs, on_handle pf c h w = (Ok bs, step_ok c w).
Proof.
  intros Hh Hc. unfold on_handle, held. cbn [handles log].
  rewrite bool_decide_eq_true_2 by assumption.
  destruct (answer_calm (log c w) Hc) as [bs Ha]. rewrite Ha. exists bs. reflexivity.
Qed.

Lemma calm_step_ok (c : os_call) (w : World) : calm w -> calm (step_ok c w).
Proof.
  unfold calm, step_ok. cbn [script set_script]. intros H.
  destruct (script w) as [|r rs]; [constructor|]. apply Forall_cons in H as [_ H]. exact H.
Qed.

Lemma os_open_calm (name : list Z) (w : World) :
  calm w ->
  os_open name w
  = (fresh w, set_fresh (fresh w + 1)
                (set_handles (fresh w :: handles w) (step_ok (OsOpen name) w))).
Proof.
  intros Hc. unfold os_open. destruct (answer_calm (log (OsOpen name) w) Hc) as [bs Ha].
  rewrite Ha. reflexivity.
Qed.

Ltac world_simpl :=
  cbn [handles fresh last_error calls script dev_dcb dev_timeouts dev_termios
       set_handles set_fresh set_last_error log set_script set_dev_dcb
       set_dev_timeouts set_dev_termios step_ok
       os hComm DCBinitial TIMEOUTinitial termiosInitial
       set_os set_hComm set_DCBinitial set_TIMEOUTinitial set_termiosInitial
       fst snd negb] in *.

Lemma Forall_tail {A} (P : A -> Prop) (l : list A) : Forall P l -> Forall P (tail l).
Proof. destruct l as [|x l]; [auto|]. intros H. apply Forall_cons in H as [_ H]. exact H. Qed.

Ltac solve_calm :=
  unfold calm in *; world_simpl; repeat apply Forall_tail; assumption.

Ltac calm_call :=
  match goal with
  | |- context [on_handle ?pf ?c ?h ?w] =>
      let bs := fresh "bs" in
      let H := fresh "H" in
      destruct (on_handle_calm pf c h w) as [bs H];
      [ world_simpl; left | solve_calm | rewrite H; clear H; world_simpl ]
  end.

(** A successful [init_COM_port] under [_WIN32], call by call. *)
Lemma init_COM_port_win32_calm
  (portName : list Z) (baudRate parityBit stopBits mode : Z) (st : Sys) :
  handles_ok (os st) -> calm (os st) ->
  exists st',
    init_COM_port_win32 portName baudRate parityBit stopBits mode st = (0, st') /\
    hComm st' = fresh (os st) /\
    handles (os st') = fresh (os st) :: handles (os st) /\
    calm (os st') /\
    DCBinitial st' = dev_dcb (os st) /\
    TIMEOUTinitial st' = dev_timeouts (os st) /\
    termiosInitial st' = termiosInitial st /\
    dev_termios (os st') = dev_termios (os st) /\
    dev_timeouts (os st') = mkCOMMTIMEOUTS MAXDWORD 0 0 0 0 /\
    dev_dcb (os st')
    = mkDCB (speed_for baudRate BaudRno_win32 BaudR_win32 (BaudRate (dev_dcb (os st)))) 8
            (if parityBit <? 3 then parityBit else 0)
            (if stopBits =? 2 then TWOSTOPBITS else ONESTOPBIT).
Proof.
  intros [Hf _] Hc. unfold init_COM_port_win32. rewrite (os_open_calm _ _ Hc). world_simpl.
  unfold INVALID_HANDLE_VALUE.
  destruct (Z.eqb_spec (fresh (os st)) (-1)) as [Heq|_]; [lia|].
  unfold GetCommState. calm_call.
  unfold SetCommState. calm_call.
  unfold GetCommTimeouts. calm_call.
  unfold SetCommTimeouts. calm_call.
  eexists. split; [reflexivity|]. world_simpl.
  split; [reflexivity|]. split; [reflexivity|]. split; [solve_calm|].
  split; [reflexivity|]. split; [reflexivity|]. split; [reflexivity|].
  split; [reflexivity|]. split; [reflexivity|].
  unfold speed_for. destruct (baud_loop baudRate BaudRno_win32 BaudR_win32); reflexivity.
Qed.

(** A successful [init_COM_port] on a POSIX system, call by call. *)
Lemma init_COM_port_posix_calm (hd : posix_h)
  (portName : list Z) (baudRate parityBit stopBits mode : Z) (st : Sys) :
  handles_ok (os st) -> calm (os st) ->
  exists st',
    init_COM_port_posix hd portName baudRate parityBit stopBits mode st = (0, st') /\
    hComm st' = fresh (os st) /\
    handles (os st') = fresh (os st) :: handles (os st) /\
    calm (os st') /\
    termiosInitial st' = dev_termios (os st) /\
    DCBinitial st' = DCBinitial st /\
    TIMEOUTinitial st' = TIMEOUTinitial st /\
    dev_dcb (os st') = dev_dcb (os st) /\
    dev_timeouts (os st') = dev_timeouts (os st) /\
    dev_termios (os st')
    = termiosSettings hd baudRate parityBit stopBits (dev_termios (os st)).
Proof.
  intros [Hf _] Hc. unfold init_COM_port_posix. rewrite (os_open_calm _ _ Hc). world_simpl.
  destruct (Z.ltb_spec (fresh (os st)) 0) as [Hlt|_]; [lia|].
  unfold tcgetattr. calm_call. cbn [Z.eqb]. world_simpl.
  unfold tcsetattr. calm_call. cbn [Z.eqb]. world_simpl.
  eexists. split; [reflexivity|]. world_simpl.
  split; [reflexivity|]. split; [reflexivity|]. split; [solve_calm|].
  repeat split.
Qed.

Lemma close_COM_port_handles (pf : platform) (st : Sys) :
  handles (os (close_COM_port pf st)) = filter (λ x, x ≠ hComm st) (handles (os st)) /\
  hComm (close_COM_port pf st) = -1 /\
  last (calls (os (close_COM_port pf st))) = Some (OsClose (hComm st)).
Proof.
  destruct pf as [|hd]; cbn [close_COM_port].
  - pose proof (SetCommState_handles (hComm st) (DCBinitial st) (os st)) as H1.
    destruct (SetCommState (hComm st) (DCBinitial st) (os st)) as [ok1 w1]. cbn [snd] in H1.
    pose proof (SetCommTimeouts_handles (hComm st) (TIMEOUTinitial st) w1) as H2.
    destruct (SetCommTimeouts (hComm st) (TIMEOUTinitial st) w1) as [ok2 w2]. cbn [snd] in H2.
    destruct (os_close_handles Win32 (hComm st) w2) as [H3 H4].
    cbn [os hComm set_os set_hComm]. rewrite H3, H2, H1.
    split; [reflexivity|]. split; [reflexivity | exact H4].
  - pose proof (tcsetattr_handles hd (hComm st) (termiosInitial st) (os st)) as H1.
    destruct (tcsetattr hd (hComm st) (termiosInitial st) (os st)) as [r1 w1]. cbn [snd] in H1.
    destruct (os_close_handles (Posix hd) (hComm st) w1) as [H3 H4].
    cbn [os hComm set_os set_hComm]. rewrite H3, H1.
    split; [reflexivity|]. split; [reflexivity | exact H4].
Qed.

(** [close_COM_port] releases the handle whatever the calls that restore
    the settings answer: the handle is not among the open ones afterwards,
    the other handles are, [hComm] is -1 and the last call to the system
    is the close of the handle. *)
Theorem close_COM_port_releases (pf : platform) (st : Sys) :
  handles (os (close_COM_port pf st)) = filter (λ x, x ≠ hComm st) (handles (os st)) /\
  (hComm st ∉ handles (os (close_COM_port pf st))) /\
  hComm (close_COM_port pf st) = -1 /\
  last (calls (os (close_COM_port pf st))) = Some (OsClose (hComm st)).
Proof.
  destruct (close_COM_port_handles pf st) as (Hhs & Hh & Hlast).
  split; [exact Hhs|]. split; [|split; assumption].
  rewrite Hhs. intros Hin. apply list_elem_of_filter in Hin as [Hne _].
  apply Hne. reflexivity.
Qed.

(** [close_COM_port] on an open handle, when its calls succeed: the
    settings saved by [init_COM_port] are the settings of the device. *)
Lemma close_COM_port_calm (pf : platform) (st : Sys) :
  hComm st ∈ handles (os st) -> calm (os st) ->
  match pf with
  | Win32 =>
      dev_dcb (os (close_COM_port pf st)) = DCBinitial st /\
      dev_timeouts (os (close_COM_port pf st)) = TIMEOUTinitial st /\
      dev_termios (os (close_COM_port pf st)) = dev_termios (os st)
  | Posix _ =>
      dev_dcb (os (close_COM_port pf st)) = dev_dcb (os st) /\
      dev_timeouts (os (close_COM_port pf st)) = dev_timeouts (os st) /\
      dev_termios (os (close_COM_port pf st)) = termiosInitial st
  end.
Proof.
  intros Hh Hc. destruct pf as [|hd]; cbn [close_COM_port].
  - unfold SetCommState.
    destruct (on_handle_calm Win32 (OsSetState (hComm st)) (hComm st) (os st) Hh Hc) as [bs1 H1].
    rewrite H1. unfold SetCommTimeouts.
    match goal with
    | |- context [on_handle Win32 ?c ?h ?w] =>
        destruct (on_handle_calm Win32 c h w) as [bs2 H2];
        [world_simpl; assumption | solve_calm | rewrite H2]
    end.
    unfold os_close, held. world_simpl.
    destruct (bool_decide (hComm st ∈ handles (os st))); world_simpl; repeat split.
  - unfold tcsetattr.
    destruct (on_handle_calm (Posix hd) (OsSetState (hComm st)) (hComm st) (os st) Hh Hc)
      as [bs1 H1].
    rewrite H1. unfold os_close, held. world_simpl.
    destruct (bool_decide (hComm st ∈ handles (os st))); world_simpl; repeat split.
Qed.

(** [init_COM_port] then [close_COM_port], when the calls succeed: the
    device has the settings it had before and no handle stays open. *)
Theorem init_close_restores (pf : platform)
  (portName : list Z) (baudRate parityBit stopBits mode : Z) (st : Sys) :
  handles_ok (os st) -> calm (os st) ->
  let '(r, st1) := init_COM_port pf portName baudRate parityBit stopBits mode st in
  let st2 := close_COM_port pf st1 in
  r = 0 /\
  dev_dcb (os st2) = dev_dcb (os st) /\
  dev_timeouts (os st2) = dev_timeouts (os st) /\
  dev_termios (os st2) = dev_termios (os st) /\
  handles (os st2) = handles (os st) /\
  hComm st2 = -1.
Proof.
  intros Hok Hc. pose proof Hok as [_ Hs].
  destruct pf as [|hd]; cbn [init_COM_port].
  - destruct (init_COM_port_win32_calm portName baudRate (u8 parityBit) (u8 stopBits) (u8 mode)
                st Hok Hc) as (st1 & -> & Hh & Hhs & Hc1 & Hd & Ht & _ & Htm & _).
    cbn zeta.
    destruct (close_COM_port_handles Win32 st1) as (Hrel & Hcomm & _).
    destruct (close_COM_port_calm Win32 st1) as (A & B & C);
      [rewrite Hh, Hhs; left | exact Hc1 |].
    rewrite A, B, C, Hd, Ht, Htm, Hrel, Hhs, Hh, (filter_fresh _ _ Hs), Hcomm. repeat split.
  - destruct (init_COM_port_posix_calm hd portName baudRate (u8 parityBit) (u8 stopBits)
                (u8 mode) st Hok Hc) as (st1 & -> & Hh & Hhs & Hc1 & Hti & _ & _ & Hd & Ht & _).
    cbn zeta.
    destruct (close_COM_port_handles (Posix hd) st1) as (Hrel & Hcomm & _).
    destruct (close_COM_port_calm (Posix hd) st1) as (A & B & C);
      [rewrite Hh, Hhs; left | exact Hc1 |].
    rewrite A, B, C, Hd, Ht, Hti, Hrel, Hhs, Hh, (filter_fresh _ _ Hs), Hcomm. repeat split.
Qed.

(** The table loop on a table whose constants are [f] of its rates. *)
Lemma baud_loop_map (f : Z -> Z) (baudRate : Z) (BaudRno : list Z) :
  baud_loop baudRate BaudRno (map f BaudRno)
  = if bool_decide (baudRate ∈ BaudRno) then Some (f baudRate) else None.
Proof.
  induction BaudRno as [|n ns IH]; [reflexivity|]. cbn [baud_loop map].
  destruct (Z.eqb_spec baudRate n) as [->|Hne].
  - rewrite bool_decide_eq_true_2 by left. reflexivity.
  - rewrite IH. destruct (bool_decide_reflect (baudRate ∈ ns)) as [Hin|Hout].
    + rewrite bool_decide_eq_true_2 by (right; exact Hin). reflexivity.
    + rewrite bool_decide_eq_false_2; [reflexivity|].
      intros Hin. apply elem_of_cons in Hin as [Heq|Hin]; contradiction.
Qed.

Lemma speed_for_win32 (baudRate old : Z) :
  speed_for baudRate BaudRno_win32 BaudR_win32 old
  = if bool_decide (baudRate ∈ BaudRno_win32) then baudRate else old.
Proof.
  unfold speed_for, BaudR_win32. rewrite <- (map_id BaudRno_win32) at 2.
  rewrite (baud_loop_map id). destruct (bool_decide _); reflexivity.
Qed.

(** What a successful [init_COM_port] sets on Windows: 8 data bits, the
    parity as given (none for a value above 2), one stop bit unless two are
    asked, reads that return at once; the rate if it is in the table, and
    otherwise the rate the line had. *)
Theorem init_COM_port_win32_settings
  (portName : list Z) (baudRate parityBit stopBits mode : Z) (st : Sys) :
  handles_ok (os st) -> calm (os st) ->
  let '(r, st') := init_COM_port Win32 portName baudRate parityBit stopBits mode st in
  r = 0 /\
  ByteSize (dev_dcb (os st')) = 8 /\
  Parity (dev_dcb (os st')) = (if u8 parityBit <? 3 then u8 parityBit else 0) /\
  StopBits (dev_dcb (os st')) = (if u8 stopBits =? 2 then TWOSTOPBITS else ONESTOPBIT) /\
  BaudRate (dev_dcb (os st'))
  = (if bool_decide (baudRate ∈ BaudRno_win32) then baudRate
     else BaudRate (dev_dcb (os st))) /\
  dev_timeouts (os st') = mkCOMMTIMEOUTS MAXDWORD 0 0 0 0.
Proof.
  intros Hok Hc. cbn [init_COM_port].
  destruct (init_COM_port_win32_calm portName baudRate (u8 parityBit) (u8 stopBits) (u8 mode)
              st Hok Hc) as (st1 & -> & _ & _ & _ & _ & _ & _ & _ & Ht & Hd).
  rewrite Hd, Ht. cbn [ByteSize Parity StopBits BaudRate]. rewrite speed_for_win32.
  repeat split.
Qed.

Ltac bitwise :=
  apply Z.bits_inj'; intros n Hn;
  repeat match goal with
         | H : Z.land _ _ = 0 |- _ =>
             apply (f_equal (λ z, Z.testbit z n)) in H;
             cbn beta in H; rewrite Z.land_spec, Z.bits_0 in H
         end;
  repeat first [rewrite Z.land_spec | rewrite Z.lor_spec | rewrite Z.lnot_spec by exact Hn
                | rewrite Z.bits_0];
  repeat match goal with
         | |- context [Z.testbit ?a n] => destruct (Z.testbit a n)
         end;
  cbn in *; congruence.

Lemma at_index_set_index_same (a : list Z) (i : Z) : at_index (set_index a i 0) i = 0.
Proof.
  unfold at_index, set_index.
  destruct (decide (Z.to_nat i < length a)%nat) as [Hlt|Hge].
  - rewrite list_lookup_insert_eq by assumption. reflexivity.
  - rewrite list_insert_ge by lia. rewrite lookup_ge_None_2 by lia. reflexivity.
Qed.

Lemma at_index_set_index_zero (a : list Z) (i j : Z) :
  at_index a i = 0 -> at_index (set_index a j 0) i = 0.
Proof.
  unfold at_index, set_index. intros H.
  destruct (decide (Z.to_nat j = Z.to_nat i)) as [Heq|Hne].
  - rewrite Heq.
    destruct (decide (Z.to_nat i < length a)%nat) as [Hlt|Hge].
    + rewrite list_lookup_insert_eq by assumption. reflexivity.
    + rewrite list_insert_ge by lia. rewrite lookup_ge_None_2 by lia. reflexivity.
  - rewrite list_lookup_insert_ne by assumption. exact H.
Qed.

Lemma termiosSettings_flags (hd : posix_h) (baudRate parityBit stopBits : Z) (t : termios) :
  let t' := termiosSettings hd baudRate parityBit stopBits t in
  at_index (c_cc t') (VMIN hd) = 0 /\
  at_index (c_cc t') (VTIME hd) = 0 /\
  Z.land (c_lflag t') (ICANON hd) = 0 /\
  Z.land (c_oflag t') (OPOST hd) = 0 /\
  Z.land (c_iflag t') (Z.lor (IXON hd) (IXOFF hd)) = 0 /\
  Z.land (c_cflag t') (CS8 hd) = CS8 hd /\
  (parityBit ≠ 0 -> Z.land (c_cflag t') (PARENB hd) = PARENB hd).
Proof.
  unfold termiosSettings. cbn zeta.
  destruct (baud_loop baudRate BaudRno_posix (BaudR_posix hd)) as [b|];
    cbn [c_cc c_lflag c_oflag c_iflag c_cflag].
  all: split; [apply at_index_set_index_zero, at_index_set_index_same|].
  all: split; [apply at_index_set_index_same|].
  all: split; [bitwise|]. all: split; [bitwise|]. all: split; [bitwise|].
  all: split; [bitwise|].
  all: intros Hp; destruct (Z.eqb_spec parityBit 0) as [Heq|_]; [contradiction|]; bitwise.
Qed.

Lemma termiosSettings_speed (hd : posix_h) (baudRate parityBit stopBits : Z) (t : termios) :
  let t' := termiosSettings hd baudRate parityBit stopBits t in
  c_ispeed t' = (if bool_decide (baudRate ∈ BaudRno_posix) then B hd baudRate else c_ispeed t) /\
  c_ospeed t' = (if bool_decide (baudRate ∈ BaudRno_posix) then B hd baudRate else c_ospeed t).
Proof.
  unfold termiosSettings, BaudR_posix. cbn zeta. rewrite baud_loop_map.
  destruct (bool_decide (baudRate ∈ BaudRno_posix)); split; reflexivity.
Qed.

Lemma termiosSettings_PARODD (hd : posix_h) (baudRate parityBit stopBits : Z) (t : termios) :
  PARODD_apart hd ->
  Z.land (c_cflag (termiosSettings hd baudRate parityBit stopBits t)) (PARODD hd)
  = (if parityBit =? 1 then PARODD hd else Z.land (c_cflag t) (PARODD hd)).
Proof.
  unfold PARODD_apart. intros H.
  repeat (apply Forall_cons in H as [? H]). clear H.
  unfold termiosSettings. cbn zeta.
  destruct (baud_loop baudRate BaudRno_posix (BaudR_posix hd)) as [b|]; cbn [c_cflag];
    destruct (parityBit =? 0), (parityBit =? 1), (stopBits =? 2); bitwise.
Qed.

(** What a successful [init_COM_port] sets on a POSIX system. *)
Theorem init_COM_port_posix_settings (hd : posix_h)
  (portName : list Z) (baudRate parityBit stopBits mode : Z) (st : Sys) :
  handles_ok (os st) -> calm (os st) ->
  let '(r, st') := init_COM_port (Posix hd) portName baudRate parityBit stopBits mode st in
  let t := dev_termios (os st) in
  let t' := dev_termios (os st') in
  r = 0 /\
  at_index (c_cc t') (VMIN hd) = 0 /\
  at_index (c_cc t') (VTIME hd) = 0 /\
  Z.land (c_lflag t') (ICANON hd) = 0 /\
  Z.land (c_oflag t') (OPOST hd) = 0 /\
  Z.land (c_iflag t') (Z.lor (IXON hd) (IXOFF hd)) = 0 /\
  Z.land (c_cflag t') (CS8 hd) = CS8 hd /\
  c_ispeed t' = (if bool_decide (baudRate ∈ BaudRno_posix) then B hd baudRate else c_ispeed t) /\
  c_ospeed t' = (if bool_decide (baudRate ∈ BaudRno_posix) then B hd baudRate else c_ospeed t).
Proof.
  intros Hok Hc. cbn [init_COM_port].
  destruct (init_COM_port_posix_calm hd portName baudRate (u8 parityBit) (u8 stopBits) (u8 mode)
              st Hok Hc) as (st1 & -> & _ & _ & _ & _ & _ & _ & _ & _ & Ht).
  cbn zeta. rewrite Ht.
  destruct (termiosSettings_flags hd baudRate (u8 parityBit) (u8 stopBits) (dev_termios (os st)))
    as (A & B' & C & D & E & F & _).
  destruct (termiosSettings_speed hd baudRate (u8 parityBit) (u8 stopBits) (dev_termios (os st)))
    as (G & H).
  auto 10.
Qed.

(** The parity a successful [init_COM_port] sets on a POSIX system:
    [PARENB] for every parity but 0, and [PARODD] for parity 1; for another
    parity [PARODD] is not cleared, it stays as the line had it. *)
Theorem init_COM_port_posix_parity (hd : posix_h)
  (portName : list Z) (baudRate parityBit stopBits mode : Z) (st : Sys) :
  PARODD_apart hd -> handles_ok (os st) -> calm (os st) ->
  let '(r, st') := init_COM_port (Posix hd) portName baudRate parityBit stopBits mode st in
  r = 0 /\
  (u8 parityBit ≠ 0 ->
   Z.land (c_cflag (dev_termios (os st'))) (PARENB hd) = PARENB hd) /\
  Z.land (c_cflag (dev_termios (os st'))) (PARODD hd)
  = (if u8 parityBit =? 1 then PARODD hd
     else Z.land (c_cflag (dev_termios (os st))) (PARODD hd)).
Proof.
  intros Hhd Hok Hc. cbn [init_COM_port].
  destruct (init_COM_port_posix_calm hd portName baudRate (u8 parityBit) (u8 stopBits) (u8 mode)
              st Hok Hc) as (st1 & -> & _ & _ & _ & _ & _ & _ & _ & _ & Ht).
  rewrite Ht. split; [reflexivity|]. split.
  - apply termiosSettings_flags.
  - apply termiosSettings_PARODD. exact Hhd.
Qed.

(** ** Writes *)

Lemma written_count_range (bytes unwritten : list Z) :
  0 <= written_count bytes unwritten <= Z.of_nat (length bytes) /\
  (bytes ≠ [] -> 1 <= written_count bytes unwritten).
Proof.
  unfold written_count. split; [lia|]. intros Hne.
  destruct bytes as [|b bytes]; [contradiction|]. simpl length. lia.
Qed.

Lemma os_write_cases (pf : platform) (h : Z) (bytes : list Z) (w : World) :
  error_codes_ok pf w ->
  calls (os_write pf h bytes w).2 = calls w ++ [OsWrite h bytes] /\
  match (os_write pf h bytes w).1 with
  | Some n => 0 <= n <= Z.of_nat (length bytes) /\ (bytes ≠ [] -> 1 <= n)
  | None => error_code (last_error (os_write pf h bytes w).2)
  end.
Proof.
  intros Hok. unfold os_write.
  pose proof (on_handle_handles pf (OsWrite h bytes) h w) as [_ Hcalls].
  destruct (on_handle pf (OsWrite h bytes) h w) as [[bs|e] w'] eqn:Hc; cbn [fst snd] in *.
  - split; [exact Hcalls | apply written_count_range].
  - split; [exact Hcalls|]. destruct (on_handle_fail _ _ _ _ _ _ Hok Hc) as [-> He]. exact He.
Qed.

Lemma written_result (pf : platform) (bytes : list Z) (st : Sys) :
  error_codes_ok pf (os st) -> (length bytes <= 255)%nat ->
  let '(put, w) := os_write pf (hComm st) bytes (os st) in
  let '(r, st') := written pf bytes st in
  os st' = w /\ hComm st' = hComm st /\
  calls (os st') = calls (os st) ++ [OsWrite (hComm st) bytes] /\
  match put with
  | Some n => r = n /\ 0 <= n <= Z.of_nat (length bytes) /\ (bytes ≠ [] -> 1 <= n)
  | None => r = - last_error w /\ r < 0
  end.
Proof.
  intros Hok Hlen. unfold written.
  destruct (os_write_cases pf (hComm st) bytes (os st) Hok) as [Hcalls Hput].
  destruct (os_write pf (hComm st) bytes (os st)) as [put w] eqn:Hw. cbn [fst snd] in *.
  destruct pf as [|hd]; rewrite Hw; destruct put as [n|].
  - rewrite i32_small by lia. auto.
  - rewrite i32_minus_dword by assumption. unfold error_code in Hput.
    repeat split; try assumption; lia.
  - rewrite i32_small by lia.
    destruct (Z.leb_spec 0 n); [auto | lia].
  - simpl "<=?". unfold error_code in Hput. rewrite i32_small by lia.
    repeat split; try assumption; lia.
Qed.

(** [COM_port_send_buffer] makes one write, of the first [length] mod 256
    bytes of the buffer; it returns the number of bytes the system reports
    written, which may be short of the number asked (it is at least 1 for
    a buffer that is not empty, and never above the number asked), or
    minus the error code of the system when the write fails. *)
Theorem COM_port_send_buffer_result (pf : platform) (buffer : list Z) (len : Z) (st : Sys) :
  error_codes_ok pf (os st) ->
  let bytes := take (Z.to_nat (len mod 256)) buffer in
  let '(put, w) := os_write pf (hComm st) bytes (os st) in
  let '(r, st') := COM_port_send_buffer pf buffer len st in
  os st' = w /\
  calls (os st') = calls (os st) ++ [OsWrite (hComm st) bytes] /\
  match put with
  | Some n => r = n /\ 0 <= r <= Z.of_nat (length bytes) /\ (bytes ≠ [] -> 1 <= r)
  | None => r = - last_error w /\ r < 0
  end.
Proof.
  intros Hok. cbn zeta.
  assert (Hlen : (length (take (Z.to_nat (len mod 256)) buffer) <= 255)%nat).
  { rewrite length_take. pose proof (Z.mod_pos_bound len 256). lia. }
  pose proof (written_result pf _ st Hok Hlen) as H.
  change (COM_port_send_buffer pf buffer len st)
    with (written pf (take (Z.to_nat (len mod 256)) buffer) st).
  destruct (os_write pf (hComm st) _ (os st)) as [put w].
  destruct (written pf _ st) as [r st'].
  destruct H as (Hos & _ & Hcalls & Hr). split; [exact Hos|]. split; [exact Hcalls|].
  destruct put as [n|]; [|exact Hr]. destruct Hr as (-> & Hn & Hpos). auto.
Qed.

Lemma u16_split (data : Z) :
  u8 (Z.land (u16 data) 255) = u16 data mod 256 /\ u8 (Z.shiftr (u16 data) 8) = u16 data / 256.
Proof.
  pose proof (u16_range data) as Hr. split.
  - change 255 with (Z.ones 8). rewrite Z.land_ones by lia. change (2 ^ 8) with 256.
    apply u8_small. apply Z.mod_pos_bound. lia.
  - rewrite Z.shiftr_div_pow2 by lia. change (2 ^ 8) with 256. apply u8_small.
    split; [apply Z.div_pos; lia | apply Z.div_lt_upper_bound; lia].
Qed.

(** [COM_port_send_word] makes one write of two bytes: the low byte of the
    word then the high one, or the high one first when the library is
    built with [COMPORT_BIG_ENDIAN]; it returns the number of bytes the
    system reports written, 1 or 2, or minus the error code. *)
Theorem COM_port_send_word_result (big_endian : bool) (pf : platform) (data : Z) (st : Sys) :
  error_codes_ok pf (os st) ->
  let d := data mod 65536 in
  let bytes := if big_endian then [d / 256; d mod 256] else [d mod 256; d / 256] in
  let '(put, w) := os_write pf (hComm st) bytes (os st) in
  let '(r, st') := COM_port_send_word big_endian pf data st in
  os st' = w /\
  calls (os st') = calls (os st) ++ [OsWrite (hComm st) bytes] /\
  match put with
  | Some n => r = n /\ (r = 1 \/ r = 2)
  | None => r = - last_error w /\ r < 0
  end.
Proof.
  intros Hok. cbn zeta.
  assert (Hb : word_buffer big_endian (u16 data)
               = if big_endian then [data mod 65536 / 256; (data mod 65536) mod 256]
                 else [(data mod 65536) mod 256; data mod 65536 / 256]).
  { destruct (u16_split data) as [Hlo Hhi]. unfold word_buffer. rewrite Hlo, Hhi.
    reflexivity. }
  change (COM_port_send_word big_endian pf data st)
    with (written pf (word_buffer big_endian (u16 data)) st).
  rewrite Hb.
  match goal with |- context [written pf ?b st] =>
    assert (Hlen : (length b <= 255)%nat) by (destruct big_endian; simpl; lia);
    assert (H2 : Z.of_nat (length b) = 2) by (destruct big_endian; reflexivity);
    assert (Hne : b ≠ []) by (destruct big_endian; discriminate);
    pose proof (written_result pf b st Hok Hlen) as H;
    destruct (os_write pf (hComm st) b (os st)) as [put w];
    destruct (written pf b st) as [r st']
  end.
  destruct H as (Hos & _ & Hcalls & Hr). split; [exact Hos|]. split; [exact Hcalls|].
  destruct put as [n|]; [|exact Hr]. destruct Hr as (-> & Hn & Hpos).
  specialize (Hpos Hne). split; [reflexivity | lia].
Qed.

(** [COM_port_send_byte] makes one write of the byte; it returns 1, or
    minus the error code. *)
Theorem COM_port_send_byte_result (pf : platform) (data : Z) (st : Sys) :
  error_codes_ok pf (os st) ->
  let '(put, w) := os_write pf (hComm st) [data mod 256] (os st) in
  let '(r, st') := COM_port_send_byte pf data st in
  os st' = w /\
  calls (os st') = calls (os st) ++ [OsWrite (hComm st) [data mod 256]] /\
  match put with
  | Some _ => r = 1
  | None => r = - last_error w /\ r < 0
  end.
Proof.
  intros Hok.
  change (COM_port_send_byte pf data st) with (written pf [data mod 256] st).
  pose proof (written_result pf [data mod 256] st Hok ltac:(simpl; lia)) as H.
  destruct (os_write pf (hComm st) [data mod 256] (os st)) as [put w].
  destruct (written pf [data mod 256] st) as [r st'].
  destruct H as (Hos & _ & Hcalls & Hr). split; [exact Hos|]. split; [exact Hcalls|].
  destruct put as [n|]; [|exact Hr]. destruct Hr as (-> & Hn & Hpos).
  specialize (Hpos ltac:(discriminate)). simpl length in Hn. lia.
Qed.

(** ** The other methods of [Port] *)

Section PortMethods.

Import VCPWrapper.

Variable pf : platform.

(** [Open] on a [Port] that is not open ends in one of four ways.  It
    returns, with the flag set, the timer started and the new handle held
    by the library.  It throws [ArgumentNullException] for a name that is
    [null], before any call.  It throws [Win32Exception] when
    [init_COM_port] fails, and the handles of the system are as they were.
    Or, on a [Port] whose timer was disposed, it throws
    [ObjectDisposedException] after [init_COM_port] took the handle and
    [PortOpen] was set: the [Port] is left open with its timer not
    running.  No event is raised, and the name and the handlers stay. *)
Theorem Open_outcomes (this : Port) (proc : Process) :
  PortOpen this = false -> handles_ok (os (native proc)) ->
  let '(r, this', proc') := Open pf this proc in
  raised proc' = raised proc /\
  PortName this' = PortName this /\ DataRecived this' = DataRecived this /\
  timerDisposed this' = timerDisposed this /\
  match r with
  | Return _ =>
      timerDisposed this = false /\
      PortOpen this' = true /\ dataPoller this' = true /\
      handles (os (native proc')) = hComm (native proc') :: handles (os (native proc))
  | Throw (ArgumentNullException _) =>
      PortName this = None /\ this' = this /\ proc' = proc
  | Throw (Win32Exception _) =>
      PortName this <> None /\ this' = this /\
      handles (os (native proc')) = handles (os (native proc))
  | Throw (ObjectDisposedException _) =>
      timerDisposed this = true /\
      PortOpen this' = true /\ dataPoller this' = dataPoller this /\
      handles (os (native proc')) = hComm (native proc') :: handles (os (native proc))
  | Throw _ => False
  end.
Proof.
  intros Hclosed Hok. unfold Open. rewrite Hclosed.
  destruct (PortName this) as [name|] eqn:Hname; [|rewrite ?Hname; auto 10].
  pose proof (init_COM_port_handles pf (ASCII_GetBytes name) (BaudRate this)
                (ParityBit_byte (Parity this)) (StopBits_byte (StopBits_ this)) 0
                (native proc) Hok) as H.
  cbn zeta in H.
  destruct (init_COM_port pf _ _ _ _ _ (native proc)) as [r sys].
  destruct H as [Hfail Hgood].
  destruct (Z.eqb_spec r 0) as [->|Hne]; cbn [negb native set_native raised].
  - destruct (Hgood eq_refl) as [Hh Hhs]. unfold dataPoller_Start.
    cbn [PortOpen dataPoller PortName DataRecived timerDisposed set_PortOpen].
    destruct (timerDisposed this) eqn:Hd;
      cbn [PortOpen dataPoller PortName DataRecived timerDisposed set_PortOpen
           native set_native raised];
      rewrite Hhs, Hh, ?Hname; repeat split; first [assumption | reflexivity].
  - destruct (Hfail Hne) as (Hhs & _ & _). rewrite ?Hname.
    repeat split; first [assumption | discriminate | reflexivity].
Qed.

(** The send methods refuse a [Port] that is not open before any call
    to the library, with an [InvalidOperationException]; [SendString] of
    [null] ends before that test, with the [ArgumentNullException] of
    [Encoding.ASCII.GetBytes].  The process is as it was. *)
Theorem Send_refused_when_closed (big_endian : bool) (this : Port) (proc : Process) :
  PortOpen this = false ->
  let refused :=
    (Throw (InvalidOperationException "Cannot write data to an unopened port."), proc) in
  (forall data, SendBytes pf this data proc = refused) /\
  (forall data, SendBytes_ushort pf big_endian this data proc = refused) /\
  (forall data, SendByte pf this data proc = refused) /\
  (forall text, SendString pf this (Some text) proc = refused) /\
  (exists paramName,
      SendString pf this None proc = (Throw (ArgumentNullException paramName), proc)).
Proof.
  intros H. unfold SendBytes, SendBytes_ushort, SendByte, SendString, SendBytes.
  rewrite H. cbn [negb]. repeat split; eauto.
Qed.

(** [SendBytes] on an open [Port], for 1 to 255 bytes: one write of exactly
    these bytes on the handle of the library; it returns when the write
    succeeds and throws a [Win32Exception] with the code of the system when
    it fails.  No event is raised. *)
Theorem SendBytes_writes (this : Port) (data : list Z) (proc : Process) :
  PortOpen this = true ->
  (1 <= length data <= 255)%nat ->
  error_codes_ok pf (os (native proc)) ->
  let '(put, w) := os_write pf (hComm (native proc)) data (os (native proc)) in
  let '(r, proc') := SendBytes pf this (Some data) proc in
  os (native proc') = w /\
  calls (os (native proc'))
  = calls (os (native proc)) ++ [OsWrite (hComm (native proc)) data] /\
  raised proc' = raised proc /\
  r = match put with
      | Some _ => Return tt
      | None => Throw (Win32Exception (last_error w))
      end.
Proof.
  intros Hopen Hlen Hok. unfold SendBytes. rewrite Hopen. cbn [negb].
  destruct (Z.eqb_spec (Z.of_nat (length data)) 0) as [Hz|_]; [lia|].
  unfold byte_MaxValue.
  destruct (Z.ltb_spec 255 (Z.of_nat (length data))) as [Hbig|_]; [lia|].
  rewrite (u8_small (Z.of_nat (length data))) by lia.
  pose proof (written_result pf data (native proc) Hok ltac:(lia)) as H.
  change (COM_port_send_buffer pf data (Z.of_nat (length data)) (native proc))
    with (written pf (take (Z.to_nat (u8 (Z.of_nat (length data)))) data) (native proc)).
  rewrite (u8_small (Z.of_nat (length data))) by lia.
  rewrite Nat2Z.id, take_ge by lia.
  destruct (os_write pf (hComm (native proc)) data (os (native proc))) as [put w].
  destruct (written pf data (native proc)) as [r sys].
  destruct H as (Hos & _ & Hcalls & Hr). cbn [native set_native raised].
  destruct put as [n|].
  - destruct Hr as (-> & Hn & _). destruct (Z.ltb_spec n 0); [lia|].
    cbn [native raised]. repeat split; first [assumption | reflexivity].
  - destruct Hr as [-> Hneg]. destruct (Z.ltb_spec (- last_error w) 0); [|lia].
    cbn [native raised]. unfold GetLastWin32Error. cbn [native set_native]. subst w.
    repeat split; first [assumption | reflexivity].
Qed.

(** [SendString] on an open [Port]: the empty string and a string of more
    than 255 characters are refused without a write; otherwise the bytes
    written are as many as the characters, each below 128. *)
Theorem SendString_bytes (this : Port) (text : string) (proc : Process) :
  PortOpen this = true ->
  let bytes := ASCII_GetBytes text in
  length bytes = length (codes text) /\
  Forall (λ b, 0 <= b < 128) bytes /\
  ((length (codes text) = 0%nat \/ (255 < length (codes text))%nat) ->
   exists message,
     SendString pf this (Some text) proc = (Throw (ArgumentException message), proc)) /\
  ((1 <= length (codes text) <= 255)%nat ->
   calls (os (native (SendString pf this (Some text) proc).2))
   = calls (os (native proc)) ++ [OsWrite (hComm (native proc)) bytes]).
Proof.
  intros Hopen. cbn zeta. unfold SendString.
  assert (Hlen : length (ASCII_GetBytes text) = length (codes text))
    by (unfold ASCII_GetBytes; apply length_map).
  split; [exact Hlen|]. split.
  { unfold ASCII_GetBytes. apply Forall_forall. intros b Hb.
    apply list_elem_of_fmap in Hb as (c & -> & Hc).
    assert (0 <= c).
    { clear -Hc. induction text as [|a text IH]; cbn [codes] in Hc.
      - apply elem_of_nil in Hc. contradiction.
      - apply elem_of_cons in Hc as [->|Hc]; [lia | auto]. }
    destruct (Z.ltb_spec c 128); lia. }
  split.
  - intros Hbad. unfold SendBytes. rewrite Hopen, Hlen. cbn [negb].
    destruct Hbad as [Hz|Hbig].
    + rewrite Hz. eexists. reflexivity.
    + destruct (Z.eqb_spec (Z.of_nat (length (codes text))) 0); [lia|].
      unfold byte_MaxValue.
      destruct (Z.ltb_spec 255 (Z.of_nat (length (codes text)))); [|lia].
      eexists. reflexivity.
  - intros Hgood. unfold SendBytes. rewrite Hopen, Hlen. cbn [negb].
    destruct (Z.eqb_spec (Z.of_nat (length (codes text))) 0); [lia|].
    unfold byte_MaxValue.
    destruct (Z.ltb_spec 255 (Z.of_nat (length (codes text)))); [lia|].
    unfold COM_port_send_buffer.
    rewrite !(u8_small (Z.of_nat (length (codes text)))) by lia.
    rewrite Nat2Z.id, take_ge by lia.
    pose proof (on_handle_handles pf (OsWrite (hComm (native proc)) (ASCII_GetBytes text))
                  (hComm (native proc)) (os (native proc))) as [_ Hcalls].
    unfold os_write.
    destruct pf as [|hd];
      destruct (on_handle _ _ _ _) as [[bs|e] w]; cbn [snd] in Hcalls;
      repeat match goal with
             | |- context [if ?b then _ else _] => destruct b
             end; cbn [snd native set_native os set_os]; exact Hcalls.
Qed.

End PortMethods.

Lemma os_read_bad_handle (pf : platform) (h len : Z) (w : World) :
  h ∉ handles w ->
  os_read pf h len w = (None, set_last_error (bad_handle pf) (log (OsRead h len) w)).
Proof.
  intros Hout. unfold os_read, on_handle, held. cbn [handles log].
  rewrite bool_decide_eq_false_2 by assumption. reflexivity.
Qed.

Lemma poll_COM_port_bad_handle (pf : platform) (buffer : list Z) (len : Z) (st : Sys) :
  hComm st ∉ handles (os st) ->
  error_code (bad_handle pf) ->
  (forall hd, pf = Posix hd -> EBADF hd ≠ EWOULDBLOCK hd) ->
  poll_COM_port pf buffer len st
  = (- bad_handle pf, buffer,
     set_os (set_last_error (bad_handle pf) (log (OsRead (hComm st) (u16 len)) (os st))) st).
Proof.
  intros Hout He Hwb. unfold poll_COM_port.
  destruct pf as [|hd]; rewrite (os_read_bad_handle _ _ _ _ Hout);
    cbn [last_error set_last_error].
  - rewrite i32_minus_dword by assumption. reflexivity.
  - simpl "<=?". cbn [bad_handle] in *.
    destruct (Z.eqb_spec (EBADF hd) (EWOULDBLOCK hd)) as [Heq|_];
      [exfalso; eapply Hwb; eauto|].
    unfold error_code in He. rewrite i32_small by lia. reflexivity.
Qed.

Section AfterClose.

Import VCPWrapper.

Variable pf : platform.
Variable N : Z.

(** [Close] does not stop the timer: the [Port] keeps its timer and its
    handlers, and the next tick reads on the handle -1, so [Poll] throws a
    [Win32Exception] with the code for a bad handle and raises nothing. *)
Theorem Poll_after_Close_throws (this : Port) (proc : Process) (fuel : nat) :
  PortOpen this = true ->
  -1 ∉ handles (os (native proc)) ->
  error_code (bad_handle pf) ->
  (forall hd, pf = Posix hd -> EBADF hd ≠ EWOULDBLOCK hd) ->
  exists this1 proc1 proc2,
    Close pf this proc = (Return this1, proc1) /\
    dataPoller this1 = dataPoller this /\
    DataRecived this1 = DataRecived this /\
    Poll pf N (S fuel) this1 proc1 = Some (Throw (Win32Exception (bad_handle pf)), proc2) /\
    raised proc2 = raised proc.
Proof.
  intros Hopen Hout He Hwb. unfold Close. rewrite Hopen. cbn [negb].
  eexists _, _, _. split; [reflexivity|].
  split; [reflexivity|]. split; [reflexivity|].
  destruct (close_COM_port_handles pf (native proc)) as (Hhs & Hh & _).
  cbn [Poll native set_native].
  rewrite (poll_COM_port_bad_handle pf _ N (close_COM_port pf (native proc)))
    by (try assumption; rewrite Hh, Hhs; intros Hin;
        apply list_elem_of_filter in Hin as [_ Hin]; contradiction).
  destruct (Z.ltb_spec (- bad_handle pf) 0) as [_|Hpos]; [|unfold error_code in He; lia].
  split; reflexivity.
Qed.

(** [Dispose] stops the timer and closes the [Port], once: a [Port] that
    is disposed is left as it is by [Dispose] and by the finalizer.  The
    finalizer of a [Port] that is not disposed closes it and leaves the
    timer as it is. *)
Theorem Dispose_once (this : Port) (proc : Process) :
  (exists this1 proc1,
      Dispose pf this false proc = (Return (this1, true), proc1) /\
      PortOpen this1 = false /\ dataPoller this1 = false /\
      (PortOpen this = false -> proc1 = proc) /\
      (PortOpen this = true ->
       handles (os (native proc1))
       = filter (λ x, x ≠ hComm (native proc)) (handles (os (native proc)))) /\
      Dispose pf this1 true proc1 = (Return (this1, true), proc1) /\
      Finalize pf this1 true proc1 = (Return (this1, true), proc1)) /\
  (exists this2 proc2,
      Finalize pf this false proc = (Return (this2, true), proc2) /\
      PortOpen this2 = false /\ dataPoller this2 = dataPoller this).
Proof.
  unfold Dispose, Finalize, Dispose_bool, Close. cbn [negb PortOpen dataPoller_Dispose].
  destruct (close_COM_port_handles pf (native proc)) as (Hhs & _).
  destruct (PortOpen this) eqn:Hopen; cbn [negb]; split.
  - eexists _, _. split; [reflexivity|]. cbn [PortOpen dataPoller set_PortOpen native set_native].
    repeat split; try reflexivity; try discriminate. intros _. exact Hhs.
  - eexists _, _. split; [reflexivity|]. split; reflexivity.
  - eexists _, _. split; [reflexivity|]. cbn [PortOpen dataPoller].
    repeat split; try reflexivity; try assumption. intros H. discriminate.
  - eexists _, _. split; [reflexivity|]. split; [assumption | reflexivity].
Qed.

End AfterClose.
Lemma ascii2hex_loop_memory (cs : list Z) :
  forall (pre rest data : list Z) (j mid : Z) (fuel : nat),
    Forall (λ c, c ≠ 0) cs ->
    (length pre + length cs <= 255)%nat ->
    (length cs < fuel)%nat ->
    ascii2hex_loop fuel (pre ++ cs ++ 0 :: rest) data (Z.of_nat (length pre)) j mid
    = Some (scan cs data j mid).
Proof.
  induction cs as [|c cs IH]; intros pre rest data j mid fuel Hnz Hlen Hfuel.
  - destruct fuel as [|fuel]; [simpl in Hfuel; lia|].
    simpl. rewrite at_index_middle. reflexivity.
  - destruct fuel as [|fuel]; [simpl in Hfuel; lia|].
    apply Forall_cons in Hnz as [Hc Hnz].
    cbn [ascii2hex_loop scan app].
    rewrite at_index_middle.
    destruct (Z.eqb_spec c 0) as [->|_]; [contradiction|].
    destruct (ascii2hex_char c data j mid) as [[data' j'] mid'].
    rewrite u8_small by (simpl in Hlen; lia).
    replace (Z.of_nat (length pre) + 1) with (Z.of_nat (length (pre ++ [c])))
      by (rewrite length_app; simpl; lia).
    replace (pre ++ c :: cs ++ 0 :: rest) with ((pre ++ [c]) ++ cs ++ 0 :: rest)
      by (rewrite <- app_assoc; reflexivity).
    apply IH; [assumption | rewrite length_app; simpl in *; lia | simpl in Hfuel; lia].
Qed.

Lemma hex_value_hex_char (x : Z) : 0 <= x < 16 -> hex_value (hex_char x) = Some x.
Proof.
  intros H.
  destruct (nibble_cases x H) as [->|[->|[->|[->|[->|[->|[->|[->|[->|[->|[->|[->|[->|[->|[->| ->]]]]]]]]]]]]]]];
    reflexivity.
Qed.

Lemma pack_pairs_hex_to_ascii (bytes : list Z) :
  Forall (λ b, 0 <= b < 256) bytes ->
  pack_pairs (hex_digits (hex_to_ascii bytes)) = bytes.
Proof.
  induction 1 as [|b bytes Hb H IH]; [reflexivity|].
  unfold hex_to_ascii in *. cbn [flat_map app].
  assert (0 <= b / 16 < 16)
    by (split; [apply Z.div_pos; lia | apply Z.div_lt_upper_bound; lia]).
  assert (0 <= b mod 16 < 16) by (apply Z.mod_pos_bound; lia).
  rewrite (hex_digits_cons_digit _ (b / 16)) by (apply hex_value_hex_char; assumption).
  rewrite (hex_digits_cons_digit _ (b mod 16)) by (apply hex_value_hex_char; assumption).
  cbn [pack_pairs]. rewrite IH. f_equal.
  pose proof (Z.div_mod b 16). lia.
Qed.

Lemma hex_to_ascii_length (bytes : list Z) :
  length (hex_to_ascii bytes) = (2 * length bytes)%nat.
Proof.
  induction bytes as [|b bytes IH]; [reflexivity|].
  unfold hex_to_ascii in *. cbn [flat_map app length]. rewrite IH. lia.
Qed.

(** [hex2ascii] and [ascii2hex] are inverse on bytes: for at most 127
    bytes and arrays that hold the results, [hex2ascii] writes the two
    characters of each byte and the terminating null, returns twice the
    number of bytes, and [ascii2hex] of the string it wrote gives the
    bytes back, whatever the memory holds behind them and behind the
    null. *)
Theorem hex2ascii_ascii2hex_inverse
    (bytes post str data : list Z) (fuel : nat) :
  Forall (λ b, 0 <= b < 256) bytes ->
  (length bytes <= 127)%nat ->
  (2 * length bytes < length str)%nat ->
  (length bytes <= length data)%nat ->
  (2 * length bytes < fuel)%nat ->
  exists str' data',
    hex2ascii (bytes ++ post) str (Z.of_nat (length bytes))
    = (str', 2 * Z.of_nat (length bytes)) /\
    read_c_string str' = hex_to_ascii bytes /\
    ascii2hex fuel str' data = Some (data', Z.of_nat (length bytes)) /\
    take (length bytes) data' = bytes.
Proof.
  intros Hb Hlen Hstr Hdata Hfuel.
  unfold hex2ascii. rewrite u8_small by lia. rewrite Nat2Z.id.
  destruct (hex2ascii_loop_spec bytes [] post str 0)
    as (str' & Hs & Htk & Hz); [assumption | simpl; lia | lia | lia | simpl; lia |].
  cbn [app length] in Hs. change (Z.of_nat 0) with 0 in Hs.
  change (Z.to_nat 0) with 0%nat in Htk, Hz. rewrite take_0 in Htk. cbn [app Nat.add] in Htk, Hz.
  pose proof (hex_to_ascii_nonzero bytes Hb) as Hnz.
  pose proof (hex_to_ascii_length bytes) as Hl.
  pose proof (pack_pairs_hex_to_ascii bytes Hb) as Hpp.
  exists str'.
  assert (Hmem : str' = [] ++ hex_to_ascii bytes ++ 0 :: drop (S (2 * length bytes)) str').
  { cbn [app]. rewrite <- Htk. rewrite <- (drop_S _ _ _ Hz). symmetry. apply take_drop. }
  destruct (scan_spec (hex_to_ascii bytes) data 0 0 []) as (data' & Hsc & Ht).
  - left. split; reflexivity.
  - lia.
  - cbn [app]. rewrite Hpp. lia.
  - cbn [app]. rewrite Hpp. simpl. exact Hdata.
  - cbn [app] in Hsc, Ht. rewrite Hpp in Hsc, Ht. simpl in Hsc, Ht.
    exists data'. split; [exact Hs|]. split.
    + apply read_c_string_take with (n := (2 * length bytes)%nat); assumption.
    + split; [|exact Ht]. unfold ascii2hex. rewrite Hmem at 1.
      rewrite (ascii2hex_loop_memory (hex_to_ascii bytes) [] _ data 0 0 fuel Hnz)
        by (simpl; lia).
      rewrite Hsc. reflexivity.
Qed.

Lemma hex2ascii_loop_end (n : nat) :
  forall (data str : list Z) (i j : Z),
    0 <= j < 256 ->
    (256 <= length str)%nat ->
    let r := hex2ascii_loop n data str i j in
    r.2 = (j + 2 * Z.of_nat n) mod 256 /\
    length r.1 = length str /\
    r.1 !! Z.to_nat r.2 = Some 0.
Proof.
  induction n as [|n IH]; intros data str i j Hj Hstr; cbn zeta.
  - cbn [hex2ascii_loop fst snd]. rewrite Z.add_0_r, Z.mod_small by lia.
    unfold set_index. rewrite length_insert. split; [reflexivity|].
    split; [reflexivity|]. apply list_lookup_insert_eq. lia.
  - cbn [hex2ascii_loop].
    set (str2 := set_index _ _ _).
    assert (Hlen2 : length str2 = length str)
      by (unfold str2, set_index; rewrite !length_insert; reflexivity).
    destruct (IH data str2 (u8 (i + 1)) (u8 (u8 (j + 1) + 1))) as (Hr & Hl & Hz).
    + unfold u8. apply Z.mod_pos_bound. lia.
    + lia.
    + split; [|split; [rewrite Hl; exact Hlen2 | exact Hz]].
      rewrite Hr. unfold u8. rewrite Zplus_mod_idemp_l.
      rewrite <- Z.add_assoc, Zplus_mod_idemp_l. f_equal. lia.
Qed.

Lemma read_c_string_short (mem : list Z) :
  forall n : nat, mem !! n = Some 0 -> (length (read_c_string mem) <= n)%nat.
Proof.
  induction mem as [|c mem IH]; intros n H; [discriminate|].
  cbn [read_c_string]. destruct (Z.eqb_spec c 0) as [->|Hc]; [simpl; lia|].
  destruct n as [|n]; [simpl in H; congruence|].
  cbn [length]. apply IH in H. lia.
Qed.

(** [hex2ascii] counts the characters in a [uint8_t]: with a [str] of 256
    characters or more it returns [2 * len] modulo 256 and writes the
    terminating null at that index, so the string it leaves has no more
    characters than the value returned.  For 128 bytes and more the
    characters written first are overwritten or cut off; for 128 bytes
    the string is empty. *)
Theorem hex2ascii_wraps (data str : list Z) (len : Z) :
  (256 <= length str)%nat ->
  0 <= len < 256 ->
  exists str',
    hex2ascii data str len = (str', (2 * len) mod 256) /\
    length str' = length str /\
    str' !! Z.to_nat ((2 * len) mod 256) = Some 0 /\
    (length (read_c_string str') <= Z.to_nat ((2 * len) mod 256))%nat.
Proof.
  intros Hstr Hlen. unfold hex2ascii. rewrite u8_small by assumption.
  destruct (hex2ascii_loop_end (Z.to_nat len) data str 0 0) as (Hr & Hl & Hz);
    [lia | assumption |].
  destruct (hex2ascii_loop (Z.to_nat len) data str 0 0) as [str' j].
  cbn [fst snd] in Hr, Hl, Hz. rewrite Z2Nat.id in Hr by lia. cbn [Z.add] in Hr.
  subst j. exists str'. split; [reflexivity|]. split; [assumption|].
  split; [assumption|]. apply read_c_string_short. assumption.
Qed.

Lemma hex2ascii_wraps_witness :
  (256 <= length (replicate 300 65))%nat /\ 0 <= 128 < 256 /\
  exists str',
    hex2ascii (replicate 128 171) (replicate 300 65) 128 = (str', (2 * 128) mod 256) /\
    length str' = length (replicate 300 65) /\
    str' !! Z.to_nat ((2 * 128) mod 256) = Some 0 /\
    (length (read_c_string str') <= Z.to_nat ((2 * 128) mod 256))%nat.
Proof.
  split; [rewrite length_replicate; lia|]. split; [lia|].
  apply (hex2ascii_wraps (replicate 128 171) (replicate 300 65) 128);
    [rewrite length_replicate; lia | lia].
Defined.

Lemma hex2ascii_ascii2hex_inverse_witness :
  Forall (λ b, 0 <= b < 256) [164; 163; 128] /\
  exists str' data',
    hex2ascii ([164; 163; 128] ++ [7]) (replicate 8 1) (Z.of_nat (length [164; 163; 128]))
    = (str', 2 * Z.of_nat (length [164; 163; 128])) /\
    read_c_string str' = hex_to_ascii [164; 163; 128] /\
    ascii2hex 7 str' [9; 9; 9; 9] = Some (data', Z.of_nat (length [164; 163; 128])) /\
    take (length [164; 163; 128]) data' = [164; 163; 128].
Proof.
  assert (H : Forall (λ b, 0 <= b < 256) [164; 163; 128]) by (repeat constructor; lia).
  split; [exact H|].
  apply (hex2ascii_ascii2hex_inverse [164; 163; 128] [7] (replicate 8 1) [9; 9; 9; 9] 7 H);
    simpl; lia.
Defined.

Lemma word_buffer_bytes (big_endian : bool) (data : Z) :
  word_buffer big_endian (u16 data)
  = if big_endian then [data mod 65536 / 256; (data mod 65536) mod 256]
    else [(data mod 65536) mod 256; data mod 65536 / 256].
Proof.
  destruct (u16_split data) as [Hlo Hhi]. unfold word_buffer. rewrite Hlo, Hhi. reflexivity.
Qed.

Section SmallWrites.

Import VCPWrapper.

Variable pf : platform.

(** What the send methods make of the value the library returns. *)
Lemma throw_on_failure (bytes : list Z) (proc : Process) :
  error_codes_ok pf (os (native proc)) -> (length bytes <= 255)%nat ->
  let '(put, w) := os_write pf (hComm (native proc)) bytes (os (native proc)) in
  let '(r, sys) := written pf bytes (native proc) in
  os sys = w /\
  (if r <? 0 then (Throw (Win32Exception (GetLastWin32Error (set_native sys proc))),
                   set_native sys proc)
   else (Return tt, set_native sys proc))
  = (match put with
     | Some _ => Return tt
     | None => Throw (Win32Exception (last_error w))
     end, set_native sys proc).
Proof.
  intros Hok Hlen. pose proof (written_result pf bytes (native proc) Hok Hlen) as H.
  destruct (os_write pf (hComm (native proc)) bytes (os (native proc))) as [put w].
  destruct (written pf bytes (native proc)) as [r sys].
  destruct H as (Hos & _ & _ & Hr). split; [exact Hos|].
  destruct put as [n|].
  - destruct Hr as (-> & Hn & _). destruct (Z.ltb_spec n 0); [lia | reflexivity].
  - destruct Hr as [-> Hneg]. destruct (Z.ltb_spec (- last_error w) 0); [|lia].
    unfold GetLastWin32Error. cbn [native set_native]. rewrite Hos. reflexivity.
Qed.

(** [SendByte] and [SendBytes(ushort)] on an open [Port]: one write, of
    the byte, or of the two bytes of the word in the order the library was
    built for; the call returns when the write succeeds and throws a
    [Win32Exception] with the code of the system when it fails.  No event
    is raised. *)
Theorem SendByte_and_word_write
    (big_endian : bool) (this : Port) (data : Z) (proc : Process) :
  PortOpen this = true ->
  error_codes_ok pf (os (native proc)) ->
  let h := hComm (native proc) in
  let d := data mod 65536 in
  let word := if big_endian then [d / 256; d mod 256] else [d mod 256; d / 256] in
  (let '(put, w) := os_write pf h [data mod 256] (os (native proc)) in
   let '(r, proc') := SendByte pf this data proc in
   os (native proc') = w /\ raised proc' = raised proc /\
   r = match put with
       | Some _ => Return tt
       | None => Throw (Win32Exception (last_error w))
       end) /\
  (let '(put, w) := os_write pf h word (os (native proc)) in
   let '(r, proc') := SendBytes_ushort pf big_endian this data proc in
   os (native proc') = w /\ raised proc' = raised proc /\
   r = match put with
       | Some _ => Return tt
       | None => Throw (Win32Exception (last_error w))
       end).
Proof.
  intros Hopen Hok. cbn zeta. unfold SendByte, SendBytes_ushort. rewrite Hopen. cbn [negb].
  split.
  - change (COM_port_send_byte pf data (native proc))
      with (written pf [data mod 256] (native proc)).
    pose proof (throw_on_failure [data mod 256] proc Hok ltac:(simpl; lia)) as H.
    destruct (os_write pf (hComm (native proc)) [data mod 256] (os (native proc))) as [put w].
    destruct (written pf [data mod 256] (native proc)) as [r sys].
    destruct H as [Hos H]. rewrite H. cbn [native set_native raised]. auto.
  - change (COM_port_send_word big_endian pf data (native proc))
      with (written pf (word_buffer big_endian (u16 data)) (native proc)).
    rewrite word_buffer_bytes.
    match goal with |- context [written pf ?b (native proc)] =>
      pose proof (throw_on_failure b proc Hok ltac:(destruct big_endian; simpl; lia)) as H;
      destruct (os_write pf (hComm (native proc)) b (os (native proc))) as [put w];
      destruct (written pf b (native proc)) as [r sys]
    end.
    destruct H as [Hos H]. rewrite H. cbn [native set_native raised]. auto.
Qed.

End SmallWrites.

Section Constructor.

Import VCPWrapper.

(** The constructor gives a [Port] exactly for the rates of [BaudRates]
    after the first; the [Port] is closed, has no handler and its timer is
    not started (and not disposed).  For every other rate it throws. *)
Theorem new_Port_accepts_iff (portName : option string) (baudRate : Z)
    (parityBit : ParityBit) (stopBits : StopBits) :
  (new_Port portName baudRate parityBit stopBits
   = Return (mkPort portName baudRate parityBit stopBits false [] false false)
   <-> baudRate ∈ BaudRates /\ baudRate ≠ 110) /\
  (new_Port portName baudRate parityBit stopBits
   = Throw (ArgumentException "Unsupported baudRate.")
   <-> ~ (baudRate ∈ BaudRates /\ baudRate ≠ 110)).
Proof.
  destruct (decide (baudRate ∈ BaudRates)) as [Hin|Hout].
  - destruct (decide (baudRate = 110)) as [->|Hne].
    + split; split.
      * discriminate.
      * intros [_ H]. contradiction.
      * intros _ [_ H]. contradiction.
      * reflexivity.
    + rewrite (new_Port_inside portName baudRate parityBit stopBits Hin Hne).
      split; split.
      * auto.
      * reflexivity.
      * discriminate.
      * intros H. exfalso. apply H. auto.
  - rewrite (new_Port_outside portName baudRate parityBit stopBits Hout).
    split; split.
    + discriminate.
    + intros [H _]. contradiction.
    + intros _ [H _]. contradiction.
    + reflexivity.
Qed.

End Constructor.

(** ** Runs on a system at hand *)

Lemma handles_ok_idle : handles_ok (os idle_sys).
Proof. split; [simpl; lia | constructor]. Qed.

Lemma calm_idle : calm (os idle_sys).
Proof. constructor. Qed.

Lemma error_codes_ok_open (pf : platform) :
  error_code (bad_handle pf) -> error_codes_ok pf (os (open_sys [Fail 5])).
Proof.
  intros H. split; [exact H|]. repeat constructor; unfold error_code; lia.
Qed.

Lemma init_close_restores_witness :
  handles_ok (os idle_sys) /\ calm (os idle_sys) /\
  let '(r, st1) := init_COM_port Win32 (codes "COM7") 9600 2 1 0 idle_sys in
  let st2 := close_COM_port Win32 st1 in
  r = 0 /\
  dev_dcb (os st2) = dev_dcb (os idle_sys) /\
  dev_timeouts (os st2) = dev_timeouts (os idle_sys) /\
  dev_termios (os st2) = dev_termios (os idle_sys) /\
  handles (os st2) = handles (os idle_sys) /\
  hComm st2 = -1.
Proof.
  split; [exact handles_ok_idle|]. split; [exact calm_idle|].
  exact (init_close_restores Win32 (codes "COM7") 9600 2 1 0 idle_sys
           handles_ok_idle calm_idle).
Defined.

Lemma init_COM_port_win32_settings_witness :
  handles_ok (os idle_sys) /\ calm (os idle_sys) /\
  let '(r, st') := init_COM_port Win32 (codes "COM7") 9601 3 2 0 idle_sys in
  r = 0 /\
  ByteSize (dev_dcb (os st')) = 8 /\
  Parity (dev_dcb (os st')) = (if u8 3 <? 3 then u8 3 else 0) /\
  StopBits (dev_dcb (os st')) = (if u8 2 =? 2 then TWOSTOPBITS else ONESTOPBIT) /\
  VCP.BaudRate (dev_dcb (os st'))
  = (if bool_decide (9601 ∈ BaudRno_win32) then 9601
     else VCP.BaudRate (dev_dcb (os idle_sys))) /\
  dev_timeouts (os st') = mkCOMMTIMEOUTS MAXDWORD 0 0 0 0.
Proof.
  split; [exact handles_ok_idle|]. split; [exact calm_idle|].
  exact (init_COM_port_win32_settings (codes "COM7") 9601 3 2 0 idle_sys
           handles_ok_idle calm_idle).
Defined.

Lemma init_COM_port_posix_settings_witness :
  handles_ok (os idle_sys) /\ calm (os idle_sys) /\
  let '(r, st') := init_COM_port (Posix linux_h) (codes "tty") 9600 0 1 0 idle_sys in
  let t := dev_termios (os idle_sys) in
  let t' := dev_termios (os st') in
  r = 0 /\
  at_index (c_cc t') (VMIN linux_h) = 0 /\
  at_index (c_cc t') (VTIME linux_h) = 0 /\
  Z.land (c_lflag t') (ICANON linux_h) = 0 /\
  Z.land (c_oflag t') (OPOST linux_h) = 0 /\
  Z.land (c_iflag t') (Z.lor (IXON linux_h) (IXOFF linux_h)) = 0 /\
  Z.land (c_cflag t') (CS8 linux_h) = CS8 linux_h /\
  c_ispeed t'
  = (if bool_decide (9600 ∈ BaudRno_posix) then B linux_h 9600 else c_ispeed t) /\
  c_ospeed t'
  = (if bool_decide (9600 ∈ BaudRno_posix) then B linux_h 9600 else c_ospeed t).
Proof.
  split; [exact handles_ok_idle|]. split; [exact calm_idle|].
  exact (init_COM_port_posix_settings linux_h (codes "tty") 9600 0 1 0 idle_sys
           handles_ok_idle calm_idle).
Defined.

Lemma PARODD_apart_linux : PARODD_apart linux_h.
Proof. repeat constructor. Qed.

Lemma init_COM_port_posix_parity_witness :
  PARODD_apart linux_h /\
  Z.land (c_cflag (dev_termios (os odd_parity_sys))) (PARODD linux_h) = PARODD linux_h /\
  let '(r, st') := init_COM_port (Posix linux_h) (codes "tty") 9600 2 1 0 odd_parity_sys in
  r = 0 /\
  (u8 2 ≠ 0 ->
   Z.land (c_cflag (dev_termios (os st'))) (PARENB linux_h) = PARENB linux_h) /\
  Z.land (c_cflag (dev_termios (os st'))) (PARODD linux_h)
  = (if u8 2 =? 1 then PARODD linux_h
     else Z.land (c_cflag (dev_termios (os odd_parity_sys))) (PARODD linux_h)).
Proof.
  split; [exact PARODD_apart_linux|]. split; [reflexivity|].
  exact (init_COM_port_posix_parity linux_h (codes "tty") 9600 2 1 0 odd_parity_sys
           PARODD_apart_linux handles_ok_idle calm_idle).
Defined.

Lemma error_code_6 : error_code (bad_handle Win32).
Proof. unfold error_code. simpl. lia. Qed.

Lemma error_codes_ok_short :
  error_codes_ok (Posix linux_h) (os (open_sys [Ok [0]])).
Proof. split; [unfold error_code; simpl; lia | repeat constructor]. Qed.

Lemma COM_port_send_buffer_result_witness :
  error_codes_ok (Posix linux_h) (os (open_sys [Ok [0]])) /\
  let bytes := take (Z.to_nat (259 mod 256)) [1; 2; 3; 4] in
  let '(put, w) := os_write (Posix linux_h) (hComm (open_sys [Ok [0]])) bytes
                     (os (open_sys [Ok [0]])) in
  let '(r, st') := COM_port_send_buffer (Posix linux_h) [1; 2; 3; 4] 259 (open_sys [Ok [0]]) in
  os st' = w /\
  calls (os st')
  = calls (os (open_sys [Ok [0]])) ++ [OsWrite (hComm (open_sys [Ok [0]])) bytes] /\
  match put with
  | Some n => r = n /\ 0 <= r <= Z.of_nat (length bytes) /\ (bytes ≠ [] -> 1 <= r)
  | None => r = - last_error w /\ r < 0
  end.
Proof.
  split; [exact error_codes_ok_short|].
  exact (COM_port_send_buffer_result (Posix linux_h) [1; 2; 3; 4] 259 (open_sys [Ok [0]])
           error_codes_ok_short).
Defined.

Lemma COM_port_send_word_result_witness :
  error_codes_ok (Posix linux_h) (os (open_sys [Ok [0]])) /\
  let d := 70196 mod 65536 in
  let bytes := if false then [d / 256; d mod 256] else [d mod 256; d / 256] in
  let '(put, w) := os_write (Posix linux_h) (hComm (open_sys [Ok [0]])) bytes
                     (os (open_sys [Ok [0]])) in
  let '(r, st') := COM_port_send_word false (Posix linux_h) 70196 (open_sys [Ok [0]]) in
  os st' = w /\
  calls (os st')
  = calls (os (open_sys [Ok [0]])) ++ [OsWrite (hComm (open_sys [Ok [0]])) bytes] /\
  match put with
  | Some n => r = n /\ (r = 1 \/ r = 2)
  | None => r = - last_error w /\ r < 0
  end.
Proof.
  split; [exact error_codes_ok_short|].
  exact (COM_port_send_word_result false (Posix linux_h) 70196 (open_sys [Ok [0]])
           error_codes_ok_short).
Defined.

Lemma COM_port_send_byte_result_witness :
  error_codes_ok Win32 (os (open_sys [Fail 5])) /\
  let '(put, w) := os_write Win32 (hComm (open_sys [Fail 5])) [300 mod 256]
                     (os (open_sys [Fail 5])) in
  let '(r, st') := COM_port_send_byte Win32 300 (open_sys [Fail 5]) in
  os st' = w /\
  calls (os st')
  = calls (os (open_sys [Fail 5])) ++ [OsWrite (hComm (open_sys [Fail 5])) [300 mod 256]] /\
  match put with
  | Some _ => r = 1
  | None => r = - last_error w /\ r < 0
  end.
Proof.
  split; [exact (error_codes_ok_open Win32 error_code_6)|].
  exact (COM_port_send_byte_result Win32 300 (open_sys [Fail 5])
           (error_codes_ok_open Win32 error_code_6)).
Defined.

Section PortWitnesses.

Import VCPWrapper.

Lemma Open_outcomes_witness :
  PortOpen (dataPoller_Dispose closed_port) = false /\
  handles_ok (os (native (mkProcess idle_sys []))) /\
  let '(r, this', proc') :=
    Open Win32 (dataPoller_Dispose closed_port) (mkProcess idle_sys []) in
  raised proc' = raised (mkProcess idle_sys []) /\
  PortName this' = PortName (dataPoller_Dispose closed_port) /\
  DataRecived this' = DataRecived (dataPoller_Dispose closed_port) /\
  timerDisposed this' = timerDisposed (dataPoller_Dispose closed_port) /\
  match r with
  | Return _ =>
      timerDisposed (dataPoller_Dispose closed_port) = false /\
      PortOpen this' = true /\ dataPoller this' = true /\
      handles (os (native proc'))
      = hComm (native proc') :: handles (os (native (mkProcess idle_sys [])))
  | Throw (ArgumentNullException _) =>
      PortName (dataPoller_Dispose closed_port) = None /\
      this' = dataPoller_Dispose closed_port /\ proc' = mkProcess idle_sys []
  | Throw (Win32Exception _) =>
      PortName (dataPoller_Dispose closed_port) <> None /\
      this' = dataPoller_Dispose closed_port /\
      handles (os (native proc')) = handles (os (native (mkProcess idle_sys [])))
  | Throw (ObjectDisposedException _) =>
      timerDisposed (dataPoller_Dispose closed_port) = true /\
      PortOpen this' = true /\
      dataPoller this' = dataPoller (dataPoller_Dispose closed_port) /\
      handles (os (native proc'))
      = hComm (native proc') :: handles (os (native (mkProcess idle_sys [])))
  | Throw _ => False
  end.
Proof.
  split; [reflexivity|]. split; [exact handles_ok_idle|].
  exact (Open_outcomes Win32 (dataPoller_Dispose closed_port) (mkProcess idle_sys [])
           eq_refl handles_ok_idle).
Defined.

Lemma Send_refused_when_closed_witness :
  PortOpen closed_port = false /\
  let refused :=
    (Throw (InvalidOperationException "Cannot write data to an unopened port."),
     mkProcess idle_sys []) in
  (forall data, SendBytes Win32 closed_port data (mkProcess idle_sys []) = refused) /\
  (forall data, SendBytes_ushort Win32 false closed_port data (mkProcess idle_sys [])
                = refused) /\
  (forall data, SendByte Win32 closed_port data (mkProcess idle_sys []) = refused) /\
  (forall text, SendString Win32 closed_port (Some text) (mkProcess idle_sys []) = refused) /\
  (exists paramName,
      SendString Win32 closed_port None (mkProcess idle_sys [])
      = (Throw (ArgumentNullException paramName), mkProcess idle_sys [])).
Proof.
  split; [reflexivity|].
  exact (Send_refused_when_closed Win32 false closed_port (mkProcess idle_sys []) eq_refl).
Defined.

Lemma SendBytes_writes_witness :
  PortOpen listening = true /\
  error_codes_ok Win32 (os (native (process [Fail 5]))) /\
  let '(put, w) := os_write Win32 (hComm (native (process [Fail 5]))) [1; 2; 3]
                     (os (native (process [Fail 5]))) in
  let '(r, proc') := SendBytes Win32 listening (Some [1; 2; 3]) (process [Fail 5]) in
  os (native proc') = w /\
  calls (os (native proc'))
  = calls (os (native (process [Fail 5])))
    ++ [OsWrite (hComm (native (process [Fail 5]))) [1; 2; 3]] /\
  raised proc' = raised (process [Fail 5]) /\
  r = match put with
      | Some _ => Return tt
      | None => Throw (Win32Exception (last_error w))
      end.
Proof.
  split; [reflexivity|]. split; [exact (error_codes_ok_open Win32 error_code_6)|].
  exact (SendBytes_writes Win32 listening [1; 2; 3] (process [Fail 5]) eq_refl
           ltac:(simpl; lia) (error_codes_ok_open Win32 error_code_6)).
Defined.

Lemma SendString_bytes_witness :
  PortOpen listening = true /\
  let bytes := ASCII_GetBytes "AT" in
  length bytes = length (codes "AT") /\
  Forall (λ b, 0 <= b < 128) bytes /\
  ((length (codes "AT") = 0%nat \/ (255 < length (codes "AT"))%nat) ->
   exists message,
     SendString Win32 listening (Some "AT"%string) (process [])
     = (Throw (ArgumentException message), process [])) /\
  ((1 <= length (codes "AT") <= 255)%nat ->
   calls (os (native (SendString Win32 listening (Some "AT"%string) (process [])).2))
   = calls (os (native (process []))) ++ [OsWrite (hComm (native (process []))) bytes]).
Proof.
  split; [reflexivity|].
  exact (SendString_bytes Win32 listening "AT" (process []) eq_refl).
Defined.

Lemma Poll_after_Close_throws_witness :
  PortOpen listening = true /\
  (-1 ∉ handles (os (native (process [])))) /\
  exists this1 proc1 proc2,
    Close Win32 listening (process []) = (Return this1, proc1) /\
    dataPoller this1 = dataPoller listening /\
    DataRecived this1 = DataRecived listening /\
    Poll Win32 bufferLength 1 this1 proc1
    = Some (Throw (Win32Exception (bad_handle Win32)), proc2) /\
    raised proc2 = raised (process []).
Proof.
  assert (H : -1 ∉ handles (os (native (process []))))
    by (intros Hin; apply elem_of_cons in Hin as [Hin|Hin];
        [discriminate | apply elem_of_nil in Hin; exact Hin]).
  split; [reflexivity|]. split; [exact H|].
  apply (Poll_after_Close_throws Win32 bufferLength listening (process []) 0 eq_refl H
           error_code_6).
  intros hd Hpf. discriminate.
Defined.

Lemma SendByte_and_word_write_witness :
  PortOpen listening = true /\
  error_codes_ok Win32 (os (native (process [Fail 5]))) /\
  let h := hComm (native (process [Fail 5])) in
  let d := 70196 mod 65536 in
  let word := if true then [d / 256; d mod 256] else [d mod 256; d / 256] in
  (let '(put, w) := os_write Win32 h [70196 mod 256] (os (native (process [Fail 5]))) in
   let '(r, proc') := SendByte Win32 listening 70196 (process [Fail 5]) in
   os (native proc') = w /\ raised proc' = raised (process [Fail 5]) /\
   r = match put with
       | Some _ => Return tt
       | None => Throw (Win32Exception (last_error w))
       end) /\
  (let '(put, w) := os_write Win32 h word (os (native (process [Fail 5]))) in
   let '(r, proc') := SendBytes_ushort Win32 true listening 70196 (process [Fail 5]) in
   os (native proc') = w /\ raised proc' = raised (process [Fail 5]) /\
   r = match put with
       | Some _ => Return tt
       | None => Throw (Win32Exception (last_error w))
       end).
Proof.
  assert (H : error_codes_ok Win32 (os (native (process [Fail 5]))))
    by (split; [unfold error_code; simpl; lia | repeat constructor; unfold error_code; lia]).
  split; [reflexivity|]. split; [exact H|].
  exact (SendByte_and_word_write Win32 true listening 70196 (process [Fail 5]) eq_refl H).
Defined.

End PortWitnesses.
